(** * Excel-Translator: the translation workflow of [ExcelTranslator.tsx]

    A shallow embedding of the component's three handlers
    ([translateText], [translateBatch], [handleFileUpload]) and of
    [handleExport], with the remote endpoint, the spreadsheet library and the
    React state setters made explicit:

    - the endpoint is an oracle giving the outcome of the k-th request;
    - the React state ([loading], [data], [error], [originalFileName],
      [progress]) is a record threaded through every call;
    - every observable effect (request, sleep, state setter, console output,
      file written) is appended to a log, so that claims about sequences of
      effects can be stated on the log.

    In the handlers the progress is computed on exact rationals ([Q]), which
    is enough for its order and its bounds.  Where the exact values matter,
    the loop over batches is also given with the binary64 arithmetic of the
    source ([upload_loop_binary64]), and the sheet with the raw cells the
    spreadsheet library hands over ([textsToTranslate_raw]). *)

From Stdlib Require Import String Ascii List Bool Arith ZArith QArith Qminmax Lia.
From Stdlib Require Import Sorted Uint63 PrimFloat.
From Stdlib Require Import Qround.
From Stdlib Require Import SpecFloat FloatOps.
Import ListNotations.

Local Close Scope Q_scope.
Local Open Scope string_scope.
Local Open Scope list_scope.
Local Open Scope nat_scope.

(* ------------------------------------------------------------------ *)
(** ** Strings *)

(** [hay.includes(needle)]: [needle] occurs in [hay] as a substring. *)
Fixpoint includes (needle hay : string) : bool :=
  String.prefix needle hay ||
  match hay with
  | EmptyString => false
  | String _ rest => includes needle rest
  end.

(** JavaScript truthiness of a string: every string but the empty one. *)
Definition truthy (s : string) : bool :=
  match s with EmptyString => false | String _ _ => true end.

(** [a || b] on possibly-undefined strings. *)
Definition or_else (a : option string) (b : string) : string :=
  match a with
  | Some s => if truthy s then s else b
  | None => b
  end.

(* ------------------------------------------------------------------ *)
(** ** Configuration ([config/constants.ts] and the module constants) *)

Module CONFIG.
Definition API_URL : string :=
  "https://generativelanguage.googleapis.com/v1beta/models/gemini-2.0-flash-lite-preview-02-05:generateContent".
Definition PROMPT_PERSIAN : string :=
  "لطفاً متن زیر را به فارسی ترجمه کنید، ساختار جمله (مانند خطوط جدید) را حفظ کرده و همانند بک انسان متن رو مرتب کرده و فقط خروجی را نمایش دهید:".
Definition DEBUG_TRANSLATED_PERSIAN : string :=
  "این یک ترجمه آزمایشی به فارسی است.".
End CONFIG.

Definition RATE_LIMIT_DELAY : Z := 1000.
Definition BATCH_SIZE : nat := 10.

(* ------------------------------------------------------------------ *)
(** ** Data model *)

Record TranslatedData : Type := mkPair {
  original : string;
  translated : string
}.

(** What the catch clauses can see of an axios failure:
    [error.response?.status], [error.response?.data?.error?.message] and
    [error.message]. *)
Record AxiosResponse : Type := mkResponse {
  status : Z;
  data_error_message : option string
}.

Record AxiosError : Type := mkAxiosError {
  response : option AxiosResponse;
  axios_message : string
}.

(** A thrown value: an axios error, or a plain [new Error(message)].  Both
    are instances of [Error] and carry a message. *)
Inductive Thrown : Type :=
| ThrownAxios (e : AxiosError)
| ThrownError (message : string).

Definition message_of (t : Thrown) : string :=
  match t with
  | ThrownAxios e => axios_message e
  | ThrownError m => m
  end.

(** Outcome of [axios.post]: the promise is fulfilled, and
    [response.data.candidates?.[0]?.content?.parts?.[0]?.text] is the given
    optional string, or it is rejected with a thrown value. *)
Inductive PostOutcome : Type :=
| Fulfilled (candidate_text : option string)
| Rejected (t : Thrown).

(** A cell grid as the spreadsheet library hands it over or takes it. *)
Definition Row : Type := list string.

Record Sheet : Type := mkSheet {
  sheet_rows : list (list (option string));
  sheet_cols : list Z                       (* ws['!cols'], the [wch] widths *)
}.

Definition Workbook : Type := list (string * Sheet).

(** The uploaded file: its name, and what [read] followed by
    [sheet_to_json (header: 1)] gives on its bytes; [None] when the library
    throws. *)
Record File : Type := mkFile {
  file_name : string;
  file_rows : option (list Row)
}.

(** The component's React state. *)
Record ComponentState : Type := mkState {
  loading : bool;
  data : list TranslatedData;
  error : string;
  originalFileName : string;
  progress : Q
}.

Definition initial_state : ComponentState :=
  {| loading := false; data := []; error := ""; originalFileName := "";
     progress := 0 |}.

(** Observable effects, in program order. *)
Inductive Event : Type :=
| EvPost (text : string)
| EvDelay (ms : Z)
| EvConsoleError (label : string)
| EvSetLoading (b : bool)
| EvSetData (d : list TranslatedData)
| EvSetError (msg : string)
| EvSetOriginalFileName (n : string)
| EvSetProgress (p : Q)
| EvWriteFile (wb : Workbook) (filename : string).

Record World : Type := mkWorld {
  ui : ComponentState;
  requests : nat;          (* number of requests issued so far *)
  log : list Event
}.

Definition initial_world : World :=
  {| ui := initial_state; requests := 0; log := [] |}.

(* ------------------------------------------------------------------ *)
(** ** A state-and-exception monad for the handlers *)

Inductive Completion (A : Type) : Type :=
| Normal (a : A)
| Abrupt (t : Thrown).
Arguments Normal {A} a.
Arguments Abrupt {A} t.

Definition M (A : Type) : Type := World -> Completion A * World.

Definition ret {A} (a : A) : M A := fun w => (Normal a, w).

Definition throw {A} (t : Thrown) : M A := fun w => (Abrupt t, w).

Definition bind {A B} (m : M A) (k : A -> M B) : M B :=
  fun w =>
    match m w with
    | (Normal a, w') => k a w'
    | (Abrupt t, w') => (Abrupt t, w')
    end.

Definition try_catch {A} (body : M A) (handler : Thrown -> M A) : M A :=
  fun w =>
    match body w with
    | (Normal a, w') => (Normal a, w')
    | (Abrupt t, w') => handler t w'
    end.

Declare Scope js_scope.
Delimit Scope js_scope with js.
Notation "x <- m ;; k" := (bind m (fun x => k))
  (at level 61, m at next level, right associativity) : js_scope.
Notation "m ;;; k" := (bind m (fun _ => k))
  (at level 61, right associativity) : js_scope.
Local Open Scope js_scope.

Definition emit (e : Event) : M unit :=
  fun w => (Normal tt, {| ui := ui w; requests := requests w; log := log w ++ [e] |}).

Definition set_ui (f : ComponentState -> ComponentState) : M unit :=
  fun w => (Normal tt, {| ui := f (ui w); requests := requests w; log := log w |}).

Definition get_ui : M ComponentState := fun w => (Normal (ui w), w).

Definition console_error (label : string) : M unit := emit (EvConsoleError label).

Definition delay (ms : Z) : M unit := emit (EvDelay ms).

Definition setLoading (b : bool) : M unit :=
  emit (EvSetLoading b) ;;;
  set_ui (fun s => {| loading := b; data := data s; error := error s;
                      originalFileName := originalFileName s; progress := progress s |}).

Definition setData (d : list TranslatedData) : M unit :=
  emit (EvSetData d) ;;;
  set_ui (fun s => {| loading := loading s; data := d; error := error s;
                      originalFileName := originalFileName s; progress := progress s |}).

Definition setError (msg : string) : M unit :=
  emit (EvSetError msg) ;;;
  set_ui (fun s => {| loading := loading s; data := data s; error := msg;
                      originalFileName := originalFileName s; progress := progress s |}).

Definition setOriginalFileName (n : string) : M unit :=
  emit (EvSetOriginalFileName n) ;;;
  set_ui (fun s => {| loading := loading s; data := data s; error := error s;
                      originalFileName := n; progress := progress s |}).

Definition setProgress (p : Q) : M unit :=
  emit (EvSetProgress p) ;;;
  set_ui (fun s => {| loading := loading s; data := data s; error := error s;
                      originalFileName := originalFileName s; progress := p |}).

(* ------------------------------------------------------------------ *)
(** ** The translation client and the batch loop *)

Definition QUOTA_MESSAGE : string :=
  "API quota exceeded. Please try again later or use a different API key.".
Definition INVALID_KEY_MESSAGE : string :=
  "Invalid API key. Please check your Gemini API key.".
Definition INVALID_FORMAT_MESSAGE : string :=
  "Invalid response format from API".
Definition UNEXPECTED_MESSAGE : string :=
  "An unexpected error occurred during translation".

(** [error.response?.status === code] *)
Definition status_is (e : AxiosError) (code : Z) : bool :=
  match response e with
  | Some r => Z.eqb (status r) code
  | None => false
  end.

(** [error.response?.data?.error?.message] *)
Definition response_message (e : AxiosError) : option string :=
  match response e with
  | Some r => data_error_message r
  | None => None
  end.

(** [error.response?.data?.error?.message?.includes('quota')], as a
    condition: [undefined] is falsy. *)
Definition response_message_includes_quota (e : AxiosError) : bool :=
  match response_message e with
  | Some m => includes "quota" m
  | None => false
  end.

(** The catch clause of [translateText], lines 68-80: what is thrown in
    place of the caught value. *)
Definition classify (t : Thrown) : Thrown :=
  match t with
  | ThrownAxios e =>
      if status_is e 429 || response_message_includes_quota e then
        ThrownError QUOTA_MESSAGE
      else if status_is e 401 then
        ThrownError INVALID_KEY_MESSAGE
      else
        ThrownError (or_else (response_message e) (axios_message e))
  | ThrownError _ => ThrownError UNEXPECTED_MESSAGE
  end.

(** [error instanceof Error && error.message.includes('quota')] *)
Definition is_quota (t : Thrown) : bool := includes "quota" (message_of t).

Section Client.

(** The remote endpoint: the outcome of the [k]-th request (counted from 0
    over the life of the page) when it carries [text]. *)
Variable net : nat -> string -> PostOutcome.

(** [await axios.post(...)]: one request, answered by the oracle. *)
Definition axios_post (text : string) : M (option string) :=
  fun w =>
    let w' := {| ui := ui w; requests := S (requests w);
                 log := log w ++ [EvPost text] |} in
    match net (requests w) text with
    | Fulfilled c => (Normal c, w')
    | Rejected t => (Abrupt t, w')
    end.

Definition translateText (text : string) : M string :=
  try_catch
    (candidate <- axios_post text ;;
     match candidate with
     | Some s =>
         if truthy s then ret s
         else console_error "API Response:" ;;;
              throw (ThrownError INVALID_FORMAT_MESSAGE)
     | None =>
         console_error "API Response:" ;;;
         throw (ThrownError INVALID_FORMAT_MESSAGE)
     end)
    (fun error =>
       console_error "Translation error:" ;;;
       throw (classify error)).

(** The [for (const text of texts)] loop of [translateBatch], with the
    [results] array built so far. *)
Fixpoint translateBatch_from (results : list string) (texts : list string)
  : M (list string) :=
  match texts with
  | [] => ret results
  | text :: rest =>
      results' <-
        try_catch
          (translated <- translateText text ;;
           let pushed := results ++ [translated] in
           delay RATE_LIMIT_DELAY ;;;
           ret pushed)
          (fun error =>
             if is_quota error then throw error
             else
               console_error "Error translating text:" ;;;
               ret (results ++ [CONFIG.DEBUG_TRANSLATED_PERSIAN])) ;;
      translateBatch_from results' rest
  end.

Definition translateBatch (texts : list string) : M (list string) :=
  translateBatch_from [] texts.

End Client.

(* ------------------------------------------------------------------ *)
(** ** The upload handler *)

(** [row[0]]: [undefined] past the end of the row. *)
Definition row0 (row : Row) : option string := nth_error row 0.

Definition truthy_opt (o : option string) : bool :=
  match o with Some s => truthy s | None => false end.

(** [jsonData.filter(row => row[0]).map(row => row[0])] *)
Definition textsToTranslate_of (jsonData : list Row) : list string :=
  map (fun row => nth 0 row "") (filter (fun row => truthy_opt (row0 row)) jsonData).

(** [l.slice(s, e)] for [s <= e]. *)
Definition slice {A} (l : list A) (s e : nat) : list A :=
  firstn (e - s) (skipn s l).

(** [translatedBatch.forEach((translated, index) => translatedData.push(...))],
    from position [index] on. *)
Fixpoint forEach_push (batch : list string) (index : nat)
    (translatedBatch : list string) (translatedData : list TranslatedData)
  : list TranslatedData :=
  match translatedBatch with
  | [] => translatedData
  | translated :: rest =>
      forEach_push batch (S index) rest
        (translatedData ++ [{| original := nth index batch ""; translated := translated |}])
  end.

(** [Math.min(((i + BATCH_SIZE) / length) * 100, 100)] *)
Definition batch_progress (i len : nat) : Q :=
  Qmin ((inject_Z (Z.of_nat (i + BATCH_SIZE)) / inject_Z (Z.of_nat len)) * 100)%Q 100.

Section Upload.

Variable net : nat -> string -> PostOutcome.

(** The [try] block inside the [for] loop, lines 124-133; it yields the
    grown [translatedData]. *)
Definition batch_step (texts : list string) (i : nat)
    (translatedData : list TranslatedData) : M (list TranslatedData) :=
  let batch := slice texts i (i + BATCH_SIZE) in
  translatedBatch <- translateBatch net batch ;;
  let translatedData' := forEach_push batch 0 translatedBatch translatedData in
  setProgress (batch_progress i (length texts)) ;;;
  setData translatedData' ;;;
  ret translatedData'.

(** The [for (let i = 0; i < length; i += BATCH_SIZE)] loop, entered at
    [i].  It ends by the loop test or by [break]; it never throws, since
    its catch clause takes everything.  [fuel] bounds the number of
    iterations; [None] is an exhausted bound. *)
Fixpoint upload_loop (fuel : nat) (texts : list string) (i : nat)
    (translatedData : list TranslatedData) (w : World)
  : option (list TranslatedData * World) :=
  if (i <? length texts) then
    match fuel with
    | O => None
    | S fuel' =>
        match batch_step texts i translatedData w with
        | (Normal translatedData', w') =>
            upload_loop fuel' texts (i + BATCH_SIZE) translatedData' w'
        | (Abrupt error, w') =>
            if is_quota error then
              Some (translatedData, snd (setError (message_of error) w'))
            else
              upload_loop fuel' texts (i + BATCH_SIZE) translatedData w'
        end
    end
  else Some (translatedData, w).

Definition PARSE_ERROR_MESSAGE : string :=
  "Error processing file. Please make sure it is a valid Excel file.".

(** [handleFileUpload]; [file] is [event.target.files?.[0]]. *)
Definition handleFileUpload (file : option File) (w : World) : option World :=
  match file with
  | None => Some w
  | Some file =>
      let w1 := snd ((setLoading true ;;; setError "" ;;;
                      setProgress 0 ;;; setData []) w) in
      let w2 := snd (setOriginalFileName (file_name file) w1) in
      let tried :=
        match file_rows file with
        | None =>
            Some (snd ((console_error "Error processing file:" ;;;
                        setError PARSE_ERROR_MESSAGE) w2))
        | Some jsonData =>
            let textsToTranslate := textsToTranslate_of jsonData in
            match upload_loop (length textsToTranslate) textsToTranslate 0 [] w2 with
            | None => None
            | Some (translatedData, w3) =>
                if (0 <? length translatedData)
                then Some (snd (setData translatedData w3))
                else Some w3
            end
        end in
      match tried with
      | None => None
      | Some w4 => Some (snd ((setLoading false ;;; setProgress 100) w4))
      end
  end.

End Upload.

(* ------------------------------------------------------------------ *)
(** ** The export handler *)

(** A plain object with string values, as its list of own properties in
    insertion order. *)
Definition JsObject : Type := list (string * string).

Fixpoint get_property (key : string) (obj : JsObject) : option string :=
  match obj with
  | [] => None
  | (k, v) :: rest => if String.eqb k key then Some v else get_property key rest
  end.

(** Columns of [utils.json_to_sheet]: the keys in order of first appearance. *)
Fixpoint add_keys (hdr : list string) (obj : JsObject) : list string :=
  match obj with
  | [] => hdr
  | (k, _) :: rest =>
      add_keys (if existsb (String.eqb k) hdr then hdr else hdr ++ [k]) rest
  end.

(** [utils.json_to_sheet(js, { skipHeader })]: one row per object, one column
    per key; the row of keys comes first unless [skipHeader] is set. *)
Definition json_to_sheet (js : list JsObject) (skipHeader : bool) : Sheet :=
  let hdr := fold_left add_keys js [] in
  let body := map (fun obj => map (fun k => get_property k obj) hdr) js in
  {| sheet_rows := if skipHeader then body else map Some hdr :: body;
     sheet_cols := [] |}.

Definition book_new : Workbook := [].

Definition book_append_sheet (wb : Workbook) (ws : Sheet) (name : string) : Workbook :=
  wb ++ [(name, ws)].

Definition EXPORT_ERROR_MESSAGE : string :=
  "Error exporting file. Please try again.".

Definition export_row (row : TranslatedData) : JsObject :=
  [("Original", original row); ("Translated", translated row)].

Section ExportHandler.

(** What [writeFile] does with a workbook and a file name: [None] when the
    file is written, the thrown value otherwise. *)
Variable writeFile_outcome : Workbook -> string -> option Thrown.

Definition writeFile (wb : Workbook) (filename : string) : M unit :=
  fun w =>
    match writeFile_outcome wb filename with
    | None => emit (EvWriteFile wb filename) w
    | Some t => (Abrupt t, w)
    end.

(** The [try] block of [handleExport], lines 156-181. *)
Definition export_body : M unit :=
  s <- get_ui ;;
  let ws := json_to_sheet
              ([("Original", "Original Text"); ("Translated", "Persian Translation")]
                 :: map export_row (data s)) true in
  let ws := {| sheet_rows := sheet_rows ws; sheet_cols := [30%Z; 30%Z] |} in
  let wb := book_append_sheet book_new ws "Translations" in
  let exportFileName :=
    if truthy (originalFileName s)
    then ("translated_" ++ originalFileName s)%string
    else "translated_document.xlsx" in
  writeFile wb exportFileName.

Definition handleExport : M unit :=
  try_catch export_body
    (fun error =>
       console_error "Export error:" ;;;
       setError EXPORT_ERROR_MESSAGE).

End ExportHandler.

(* ------------------------------------------------------------------ *)
(** ** Reading the log *)

(** The texts sent to the endpoint, in order. *)
Definition posts (evs : list Event) : list string :=
  flat_map (fun e => match e with EvPost t => [t] | _ => [] end) evs.

(** The values passed to [setProgress], in order. *)
Definition progress_values (evs : list Event) : list Q :=
  flat_map (fun e => match e with EvSetProgress p => [p] | _ => [] end) evs.

(** Requests and sleeps only. *)
Definition timing (evs : list Event) : list Event :=
  filter (fun e => match e with EvPost _ | EvDelay _ => true | _ => false end) evs.

(** A checkpoint is a [setProgress p] immediately followed by a
    [setData d]. *)
Fixpoint checkpoints (evs : list Event) : list (Q * list TranslatedData) :=
  match evs with
  | [] => []
  | EvSetProgress p :: rest =>
      match rest with
      | EvSetData d :: _ => (p, d) :: checkpoints rest
      | _ => checkpoints rest
      end
  | _ :: rest => checkpoints rest
  end.

(** [error.response?.status === code] and
    [error.response?.data?.error?.message === m], as propositions. *)
Definition has_status (e : AxiosError) (code : Z) : Prop :=
  exists r, response e = Some r /\ status r = code.

Definition server_message (e : AxiosError) (m : string) : Prop :=
  exists r, response e = Some r /\ data_error_message r = Some m.

Definition server_mentions_quota (e : AxiosError) : Prop :=
  exists m, server_message e m /\ includes "quota" m = true.

(** The name [handleExport] gives the exported file. *)
Definition export_name (originalFileName : string) : string :=
  match originalFileName with
  | EmptyString => "translated_document.xlsx"
  | _ => ("translated_" ++ originalFileName)%string
  end.

(** The sheet [handleExport] builds from the pairs, under a header row with
    the given label for the second column. *)
Definition export_sheet (second_label : string) (pairs : list TranslatedData) : Sheet :=
  {| sheet_rows :=
       [Some "Original Text"; Some second_label]
         :: map (fun p => [Some (original p); Some (translated p)]) pairs;
     sheet_cols := [30%Z; 30%Z] |}.

(** The first row of the first sheet of a workbook. *)
Definition header_row_of (wb : Workbook) : option (list (option string)) :=
  match wb with
  | (_, ws) :: _ => hd_error (sheet_rows ws)
  | [] => None
  end.

(** The header rows of the files written, in order. *)
Definition written_headers (evs : list Event) : list (option (list (option string))) :=
  flat_map (fun e => match e with
                     | EvWriteFile wb _ => [header_row_of wb]
                     | _ => []
                     end) evs.

(** Events of the client and of the batch loop: they set no React state. *)
Definition is_client_event (e : Event) : bool :=
  match e with
  | EvPost _ | EvDelay _ | EvConsoleError _ => true
  | _ => false
  end.

(* ------------------------------------------------------------------ *)
(** ** What a run does, item by item *)

Section Items.

Variable net : nat -> string -> PostOutcome.

(** How [translateText text] completes when it issues request number [k]. *)
Definition attempt (k : nat) (text : string) : Completion string :=
  fst (translateText net text {| ui := initial_state; requests := k; log := [] |}).

(** The value [translateBatch] pushes for an item that is no quota error. *)
Definition translation_of (k : nat) (text : string) : string :=
  match attempt k text with
  | Normal s => s
  | Abrupt _ => CONFIG.DEBUG_TRANSLATED_PERSIAN
  end.

(** The first item of [texts] whose attempt is a quota error, with the
    error thrown, when the items are sent as requests [r], [r+1], ... *)
Fixpoint first_quota (r : nat) (texts : list string) : option (nat * Thrown) :=
  match texts with
  | [] => None
  | text :: rest =>
      match attempt r text with
      | Abrupt t =>
          if is_quota t then Some (O, t)
          else option_map (fun qt => (S (fst qt), snd qt)) (first_quota (S r) rest)
      | Normal _ =>
          option_map (fun qt => (S (fst qt), snd qt)) (first_quota (S r) rest)
      end
  end.

(** The pairs of a run without quota error over [texts]. *)
Fixpoint pairs_from (r : nat) (texts : list string) : list TranslatedData :=
  match texts with
  | [] => []
  | text :: rest =>
      {| original := text; translated := translation_of r text |}
        :: pairs_from (S r) rest
  end.

(** The requests and sleeps of [translateBatch] over [texts], sent as
    requests [r], [r+1], ...: a request per item, a sleep after each one
    that succeeds, and nothing after a quota error. *)
Fixpoint batch_timing (r : nat) (texts : list string) : list Event :=
match texts with
| [] => []
| text :: rest =>
    EvPost text ::
    match attempt r text with
    | Normal _ => EvDelay RATE_LIMIT_DELAY :: batch_timing (S r) rest
    | Abrupt t => if is_quota t then [] else batch_timing (S r) rest
    end
end.

(** Number of batches a run over [texts] completes: all of them, or those
    before the batch of the first quota error. *)
Definition completed_batches (r : nat) (texts : list string) : nat :=
  match first_quota r texts with
  | None => (length texts + (BATCH_SIZE - 1)) / BATCH_SIZE
  | Some (q, _) => q / BATCH_SIZE
  end.

(** The checkpoints of [b] batches in a row, the first one starting at index
    [i] of an input of [n] texts, of which [rest] are left and sent from
    request [r] on, [translatedData] being what is there already. *)
Definition loop_checkpoints (n r i : nat) (translatedData : list TranslatedData)
    (rest : list string) (b : nat) : list (Q * list TranslatedData) :=
  map (fun m => (batch_progress (i + BATCH_SIZE * m) n,
                 translatedData ++ pairs_from r (firstn (BATCH_SIZE * S m) rest)))
      (seq 0 b).

(** No attempt on an item of [texts] ends in a quota error. *)
Definition quota_free (r : nat) (texts : list string) : Prop :=
  forall k text t,
    nth_error texts k = Some text ->
    attempt (r + k) text = Abrupt t -> is_quota t = false.

(** Item [q] is the first one whose attempt ends in a quota error, [t]. *)
Definition first_quota_at (r : nat) (texts : list string) (q : nat) (t : Thrown)
  : Prop :=
  (exists text, nth_error texts q = Some text /\ attempt (r + q) text = Abrupt t)
  /\ is_quota t = true
  /\ quota_free r (firstn q texts).

End Items.

(** The events of [handleFileUpload] around those of its loop, on a file
    that parses. *)
Definition upload_events (name : string) (loop_events : list Event)
    (translatedData : list TranslatedData) : list Event :=
  [EvSetLoading true; EvSetError ""; EvSetProgress 0%Q; EvSetData [];
   EvSetOriginalFileName name]
  ++ loop_events
  ++ (if 0 <? length translatedData then [EvSetData translatedData] else [])
  ++ [EvSetLoading false; EvSetProgress 100%Q].

(* ------------------------------------------------------------------ *)
(** ** Scenarios *)

Module Scenario.

(** An endpoint that answers every request with a translation. *)
Definition net_ok (k : nat) (text : string) : PostOutcome :=
  Fulfilled (Some ("fa:" ++ text)%string).

(** An HTTP error response with the given status and no error body. *)
Definition http_error (code : Z) : PostOutcome :=
  Rejected (ThrownAxios
    {| response := Some {| status := code; data_error_message := None |};
       axios_message := "Request failed" |}).

(** An endpoint that answers request number [k0] (from 0) with an HTTP error
    and every other request with a translation. *)
Definition net_failing (k0 : nat) (code : Z) (k : nat) (text : string)
  : PostOutcome :=
  if Nat.eqb k k0 then http_error code else net_ok k text.

Definition texts10 : list string :=
  ["t1"; "t2"; "t3"; "t4"; "t5"; "t6"; "t7"; "t8"; "t9"; "t10"].

Definition texts25 : list string :=
  texts10 ++ ["t11"; "t12"; "t13"; "t14"; "t15"; "t16"; "t17"; "t18"; "t19"; "t20";
              "t21"; "t22"; "t23"; "t24"; "t25"].

(** A sheet with the given texts in its first column. *)
Definition rows_of (texts : list string) : list Row :=
  map (fun t => [t; "note"]) texts.

Definition file_of (texts : list string) : File :=
  {| file_name := "in.xlsx"; file_rows := Some (rows_of texts) |}.

(** A sheet whose first column is empty. *)
Definition blank_rows : list Row := [[""; "x"]; []; [""]].

Definition blank_file : File :=
  {| file_name := "blank.xlsx"; file_rows := Some blank_rows |}.

(** A state with two pairs, after an upload of [in.xlsx]. *)
Definition two_pairs : World :=
  {| ui := {| loading := false;
              data := [ {| original := "a"; translated := "A" |};
                        {| original := "b"; translated := "B" |} ];
              error := ""; originalFileName := "in.xlsx"; progress := 100 |};
     requests := 2; log := [] |}.

Definition writeFile_ok (wb : Workbook) (filename : string) : option Thrown := None.

Definition writeFile_failing (wb : Workbook) (filename : string) : option Thrown :=
  Some (ThrownError "cannot save file").

(** Three rejections: a 429, a 401, and a 500 with a server message. *)
Definition error_429 : AxiosError :=
  {| response := Some {| status := 429; data_error_message := None |};
     axios_message := "Request failed with status code 429" |}.
Definition error_401 : AxiosError :=
  {| response := Some {| status := 401; data_error_message := Some "API key not valid" |};
     axios_message := "Request failed with status code 401" |}.
Definition error_500 : AxiosError :=
  {| response := Some {| status := 500; data_error_message := Some "Internal error" |};
     axios_message := "Request failed with status code 500" |}.

End Scenario.

(** [Math.min(((i + BATCH_SIZE) / length) * 100, 100)] on binary64 floats,
    the numbers of the source. *)
Definition float_of_nat (n : nat) : float :=
  PrimFloat.of_uint63 (Uint63.of_Z (Z.of_nat n)).

Definition batch_progress_binary64 (i len : nat) : float :=
  let x := PrimFloat.mul (PrimFloat.div (float_of_nat (i + BATCH_SIZE)) (float_of_nat len))
                         (float_of_nat 100) in
  if PrimFloat.ltb x (float_of_nat 100) then x else float_of_nat 100.


(* ------------------------------------------------------------------ *)
(** ** What is rendered *)

(** [Math.ceil(length / BATCH_SIZE)], the [totalBatches] of line 118 (the
    handler computes it and does not use it). *)
Definition totalBatches (len : nat) : nat := (len + (BATCH_SIZE - 1)) / BATCH_SIZE.

(** [Math.round(x)]: the nearest integer, halves going up. *)
Definition Math_round (x : Q) : Z := Qfloor (x + (1 # 2))%Q.

(** The parts of the returned element that depend on the state, lines
    188-269: the two buttons, the progress box, the table and the snackbar.
    A part that is not rendered is [None]. *)
Record View : Type := mkView {
  upload_disabled : bool;                 (* disabled={loading} *)
  download_button : option bool;          (* data.length > 0 && ..., disabled={loading} *)
  progress_box : option (Q * Z);          (* loading && ...: bar value, label percentage *)
  table : option (list string * list (string * string));
                                          (* data.length > 0 && ...: head cells, body rows *)
  snackbar_open : bool;                   (* open={!!error} *)
  snackbar_text : string
}.

Definition render (s : ComponentState) : View :=
  {| upload_disabled := loading s;
     download_button := if 0 <? length (data s) then Some (loading s) else None;
     progress_box :=
       if loading s then Some (progress s, Math_round (progress s)) else None;
     table :=
       if 0 <? length (data s)
       then Some (["Original Text"; "Persian Translation"],
                  map (fun row => (original row, translated row)) (data s))
       else None;
     snackbar_open := truthy (error s);
     snackbar_text := error s |}.

(** [onClose={() => setError('')}] of the snackbar and of its alert. *)
Definition snackbar_onClose : M unit := setError "".

Module Scenario2.

(** A file that the spreadsheet library rejects. *)
Definition broken_file : File :=
  {| file_name := "notes.txt"; file_rows := None |}.

(** A sheet with a header row, an empty row and two rows of text. *)
Definition mixed_rows : list Row :=
  [["Title"; "Comment"]; []; [""; "skipped"]; ["hello"]; ["world"; "x"]].

(** A response without the expected text field. *)
Definition net_malformed (k : nat) (text : string) : PostOutcome := Fulfilled None.

(** A transport failure (no response) whose message mentions the quota. *)
Definition transport_quota : AxiosError :=
  {| response := None; axios_message := "proxy: quota exhausted" |}.

End Scenario2.

(* ------------------------------------------------------------------ *)
(** ** The loop over batches on binary64 numbers *)





Section UploadBinary64.

Variable net : nat -> string -> PostOutcome.





End UploadBinary64.

(* ------------------------------------------------------------------ *)
(** ** The sheet as the spreadsheet library hands it over *)

(** A cell of [sheet_to_json(worksheet, { header: 1 })]: a string, a number,
    a boolean, or nothing ([undefined], [null], or an index past the end of
    the row). *)
Inductive Cell : Type :=
| CellString (s : string)
| CellNumber (x : float)
| CellBoolean (b : bool)
| CellEmpty.

(** JavaScript truthiness of a cell. *)
Definition cell_truthy (c : Cell) : bool :=
  match c with
  | CellString s => truthy s
  | CellNumber x => negb (PrimFloat.is_zero x || PrimFloat.is_nan x)
  | CellBoolean b => b
  | CellEmpty => false
  end.

(** [row[0]] *)
Definition raw_row0 (row : list Cell) : Cell := nth 0 row CellEmpty.

(** [jsonData.filter(row => row[0]).map(row => row[0])] on raw cells. *)
Definition textsToTranslate_raw (jsonData : list (list Cell)) : list Cell :=
  map raw_row0 (filter (fun row => cell_truthy (raw_row0 row)) jsonData).
(* ------------------------------------------------------------------ *)
(** ** Lemmas on the log projections *)

Lemma posts_app (a b : list Event) : posts (a ++ b) = posts a ++ posts b.
Proof. unfold posts. apply flat_map_app. Qed.

Lemma posts_cons (e : Event) (evs : list Event) :
  posts (e :: evs) = match e with EvPost t => t :: posts evs | _ => posts evs end.
Proof. destruct e; reflexivity. Qed.

Ltac solve_posts P1 P2 :=
  repeat (rewrite ?posts_cons, ?posts_app, ?P1, ?P2; cbn [app firstn]);
  reflexivity.

Lemma run_eq {A} (c c' : A) (u : ComponentState) (r r' : nat)
    (l l' : list Event) :
  c = c' -> r = r' -> l = l' ->
  (c, {| ui := u; requests := r; log := l |}) =
  (c', {| ui := u; requests := r'; log := l' |}).
Proof. intros; subst; reflexivity. Qed.

Ltac finish_run :=
  apply run_eq;
  [ repeat rewrite <- app_assoc; reflexivity
  | cbn [length]; lia
  | repeat rewrite <- app_assoc; reflexivity ].

Lemma progress_values_app (a b : list Event) :
  progress_values (a ++ b) = progress_values a ++ progress_values b.
Proof. unfold progress_values. apply flat_map_app. Qed.

Lemma client_events_no_progress (evs : list Event) :
  forallb is_client_event evs = true -> progress_values evs = [].
Proof.
  induction evs as [|e evs IH]; simpl; intros H; [reflexivity|].
  apply andb_true_iff in H as [He Hevs].
  destruct e; simpl in *; try discriminate; auto.
Qed.

Lemma client_events_checkpoints (evs rest : list Event) :
  forallb is_client_event evs = true -> checkpoints (evs ++ rest) = checkpoints rest.
Proof.
  induction evs as [|e evs IH]; simpl; intros H; [reflexivity|].
  apply andb_true_iff in H as [He Hevs].
  destruct e; simpl in *; try discriminate; auto.
Qed.

(* ------------------------------------------------------------------ *)
(** ** The client *)

Section ClientFacts.

Variable net : nat -> string -> PostOutcome.

(** One call is one request; the React state is untouched, and the
    completion depends on the request number and the text only. *)
Lemma translateText_run (text : string) (w : World) :
  exists evs,
    translateText net text w =
      (attempt net (requests w) text,
       {| ui := ui w; requests := S (requests w);
          log := log w ++ EvPost text :: evs |})
    /\ forallb is_client_event evs = true
    /\ posts evs = [].
Proof.
  unfold attempt, translateText, try_catch, bind, axios_post; simpl.
  destruct (net (requests w) text) as [[s|]|t]; [destruct (truthy s)|..];
    simpl; rewrite <- ?app_assoc; simpl; eexists; repeat split.
Qed.

(** [translateText] throws plain errors only. *)
Lemma attempt_throws_error (k : nat) (text : string) (t : Thrown) :
  attempt net k text = Abrupt t -> exists m, t = ThrownError m.
Proof.
  unfold attempt, translateText, try_catch, bind, axios_post; simpl.
  destruct (net k text) as [[s|]|t']; [destruct (truthy s)|..]; simpl;
    intros H; inversion H; subst; clear H; try (eexists; reflexivity).
  unfold classify. destruct t' as [e|m]; [|eexists; reflexivity].
  destruct (status_is e 429 || response_message_includes_quota e);
    [|destruct (status_is e 401)]; eexists; reflexivity.
Qed.

End ClientFacts.

(* ------------------------------------------------------------------ *)
(** ** The batch loop *)

Section BatchFacts.

Variable net : nat -> string -> PostOutcome.

(** [translateBatch] either returns one value per text, the placeholder
    standing for every failed item, or rethrows the first quota error; in
    both cases it has sent the texts in order, up to and including the one
    that failed. *)
Lemma translateBatch_from_run (texts results : list string) (w : World) :
  exists evs,
    forallb is_client_event evs = true /\
    match first_quota net (requests w) texts with
    | None =>
        translateBatch_from net results texts w =
          (Normal (results ++ map translated (pairs_from net (requests w) texts)),
           {| ui := ui w; requests := requests w + length texts;
              log := log w ++ evs |})
        /\ posts evs = texts
    | Some (q, t) =>
        translateBatch_from net results texts w =
          (Abrupt t,
           {| ui := ui w; requests := requests w + S q; log := log w ++ evs |})
        /\ posts evs = firstn (S q) texts
    end.
Proof.
  revert results w.
  induction texts as [|text rest IH]; intros results w.
  - exists []. simpl. rewrite !app_nil_r, Nat.add_0_r.
    destruct w; auto.
  - destruct (translateText_run net text w) as [evs1 (E1 & C1 & P1)].
    cbn [translateBatch_from first_quota pairs_from].
    unfold bind, try_catch. rewrite E1. unfold translation_of.
    destruct (attempt net (requests w) text) as [s|t] eqn:A.
    + cbn [delay emit ret ui requests log].
      match goal with |- context [translateBatch_from net ?r rest ?w1] =>
        destruct (IH r w1) as [evs2 (C2 & H2)] end.
      cbn [requests ui log] in H2.
      exists (EvPost text :: evs1 ++ EvDelay RATE_LIMIT_DELAY :: evs2).
      split.
      { cbn. rewrite forallb_app, C1. cbn. exact C2. }
      destruct (first_quota net (S (requests w)) rest) as [[q t]|];
        destruct H2 as [H2 P2]; rewrite H2; cbn [option_map fst snd map].
      * split.
        { finish_run. }
        { solve_posts P1 P2. }
      * split.
        { finish_run. }
        { solve_posts P1 P2. }
    + destruct (is_quota t) eqn:Q.
      * exists (EvPost text :: evs1). split; [exact C1|].
        cbn [throw]. split.
        { finish_run. }
        { solve_posts P1 P1. }
      * cbn [console_error emit ret ui requests log].
        match goal with |- context [translateBatch_from net ?r rest ?w1] =>
          destruct (IH r w1) as [evs2 (C2 & H2)] end.
        cbn [requests ui log] in H2.
        exists (EvPost text :: evs1 ++ EvConsoleError "Error translating text:" :: evs2).
        split.
        { cbn. rewrite forallb_app, C1. cbn. exact C2. }
        destruct (first_quota net (S (requests w)) rest) as [[q t']|];
          destruct H2 as [H2 P2]; rewrite H2; cbn [option_map fst snd map].
        -- split.
           { finish_run. }
           { solve_posts P1 P2. }
        -- split.
           { finish_run. }
           { solve_posts P1 P2. }
Qed.

End BatchFacts.

(* ------------------------------------------------------------------ *)
(** ** Item-by-item facts *)

Section ItemFacts.

Variable net : nat -> string -> PostOutcome.

Lemma pairs_from_app (a b : list string) (r : nat) :
  pairs_from net r (a ++ b) =
  pairs_from net r a ++ pairs_from net (r + length a) b.
Proof.
  revert r. induction a as [|x a IH]; intros r; cbn [pairs_from app length].
  - rewrite Nat.add_0_r. reflexivity.
  - rewrite IH. replace (S r + length a) with (r + S (length a)) by lia.
    reflexivity.
Qed.

Lemma pairs_from_length (l : list string) (r : nat) :
  length (pairs_from net r l) = length l.
Proof. revert r. induction l; intros r; cbn; auto. Qed.

Lemma pairs_from_original (l : list string) (r : nat) :
  map original (pairs_from net r l) = l.
Proof. revert r. induction l; intros r; cbn; [|rewrite IHl]; auto. Qed.


Lemma pairs_from_nth_error (l : list string) (r k : nat) (text : string) :
  nth_error l k = Some text ->
  nth_error (pairs_from net r l) k =
    Some {| original := text; translated := translation_of net (r + k) text |}.
Proof.
  revert r k. induction l as [|x l IH]; intros r [|k]; cbn; try discriminate.
  - intros H; inversion H; subst. rewrite Nat.add_0_r. reflexivity.
  - intros H. rewrite (IH (S r) k H).
    replace (S r + k) with (r + S k) by lia. reflexivity.
Qed.

Lemma first_quota_app (a b : list string) (r : nat) :
  first_quota net r (a ++ b) =
  match first_quota net r a with
  | Some qt => Some qt
  | None =>
      option_map (fun qt => (length a + fst qt, snd qt))
                 (first_quota net (r + length a) b)
  end.
Proof.
  revert r. induction a as [|x a IH]; intros r; cbn [first_quota app length].
  - rewrite Nat.add_0_r. destruct (first_quota net r b) as [[q t]|]; reflexivity.
  - rewrite IH. replace (r + S (length a)) with (S r + length a) by lia.
    destruct (first_quota net (S r + length a) b) as [[qb tb]|];
      destruct (first_quota net (S r) a) as [[qa ta]|];
      destruct (attempt net r x) as [s|t]; try destruct (is_quota t);
      reflexivity.
Qed.

(** What [first_quota] finds is a quota error, thrown by the attempt on
    the item it names, and no earlier item has one. *)
Lemma first_quota_sound (l : list string) (r q : nat) (t : Thrown) :
  first_quota net r l = Some (q, t) ->
  is_quota t = true /\
  q < length l /\
  (exists text, nth_error l q = Some text /\ attempt net (r + q) text = Abrupt t) /\
  first_quota net r (firstn q l) = None.
Proof.
  revert r q. induction l as [|x l IH]; intros r q; cbn [first_quota];
    [discriminate|].
  destruct (attempt net r x) as [s|t'] eqn:A.
  - destruct (first_quota net (S r) l) as [[q' t'']|] eqn:F; cbn; [|discriminate].
    intros H; inversion H; subst; clear H.
    destruct (IH _ _ F) as (Q & L & (text & N & E) & P).
    cbn [firstn first_quota]. rewrite A, P.
    repeat split; auto; [cbn; lia|].
    exists text. split; [exact N|]. rewrite <- E. f_equal. lia.
  - destruct (is_quota t') eqn:Q'.
    + intros H; inversion H; subst; clear H. repeat split; auto; [cbn; lia|].
      exists x. rewrite Nat.add_0_r. auto.
    + destruct (first_quota net (S r) l) as [[q' t'']|] eqn:F; cbn; [|discriminate].
      intros H; inversion H; subst; clear H.
      destruct (IH _ _ F) as (Q & L & (text & N & E) & P).
      cbn [firstn first_quota]. rewrite A, Q', P.
      repeat split; auto; [cbn; lia|].
      exists text. split; [exact N|]. rewrite <- E. f_equal. lia.
Qed.

(** Without quota error every attempt either succeeds or fails
    otherwise. *)
Lemma first_quota_none (l : list string) (r k : nat) (text : string) (t : Thrown) :
  first_quota net r l = None ->
  nth_error l k = Some text ->
  attempt net (r + k) text = Abrupt t -> is_quota t = false.
Proof.
  revert r k. induction l as [|x l IH]; intros r [|k]; cbn [first_quota nth_error];
    try discriminate.
  - intros F H; inversion H; subst; clear H. rewrite Nat.add_0_r. intros A.
    rewrite A in F. destruct (is_quota t); [discriminate|reflexivity].
  - intros F H A. apply (IH (S r) k); auto.
    + destruct (attempt net r x) as [s|t']; [|destruct (is_quota t'); [discriminate|]];
        destruct (first_quota net (S r) l); auto; discriminate.
    + rewrite <- A. f_equal. lia.
Qed.

Lemma forEach_push_pairs (pre post : list string) (r : nat)
    (translatedData : list TranslatedData) :
  forEach_push (pre ++ post) (length pre)
    (map translated (pairs_from net r post)) translatedData =
  translatedData ++ pairs_from net r post.
Proof.
  revert pre r translatedData.
  induction post as [|x post IH]; intros pre r td; cbn [pairs_from map forEach_push].
  - rewrite app_nil_r. reflexivity.
  - rewrite nth_middle.
    replace (pre ++ x :: post) with ((pre ++ [x]) ++ post)
      by (rewrite <- app_assoc; reflexivity).
    replace (S (length pre)) with (length (pre ++ [x]))
      by (rewrite length_app; cbn; lia).
    rewrite IH, <- app_assoc. reflexivity.
Qed.

End ItemFacts.

(* ------------------------------------------------------------------ *)
(** ** One batch and the loop over batches *)

Lemma firstn_plus {A} (a b : nat) (l : list A) :
  firstn (a + b) l = firstn a l ++ firstn b (skipn a l).
Proof.
  revert l. induction a as [|a IH]; intros [|x l]; cbn [firstn skipn Nat.add app];
    try reflexivity.
  - rewrite firstn_nil. reflexivity.
  - rewrite IH. reflexivity.
Qed.

Lemma slice_batch {A} (l : list A) (i : nat) :
  slice l i (i + BATCH_SIZE) = firstn BATCH_SIZE (skipn i l).
Proof. unfold slice. replace (i + BATCH_SIZE - i) with BATCH_SIZE by lia. reflexivity. Qed.

Lemma skipn_batch {A} (l : list A) (i : nat) :
  skipn (i + BATCH_SIZE) l = skipn BATCH_SIZE (skipn i l).
Proof. rewrite skipn_skipn. f_equal. lia. Qed.

Section LoopFacts.

Variable net : nat -> string -> PostOutcome.

Lemma batch_step_run (texts : list string) (i : nat)
    (td : list TranslatedData) (w : World) :
  exists evs,
    forallb is_client_event evs = true /\
    match first_quota net (requests w) (firstn BATCH_SIZE (skipn i texts)) with
    | None =>
        batch_step net texts i td w =
          (Normal (td ++ pairs_from net (requests w) (firstn BATCH_SIZE (skipn i texts))),
           {| ui := {| loading := loading (ui w);
                       data := td ++ pairs_from net (requests w)
                                       (firstn BATCH_SIZE (skipn i texts));
                       error := error (ui w);
                       originalFileName := originalFileName (ui w);
                       progress := batch_progress i (length texts) |};
              requests := requests w + length (firstn BATCH_SIZE (skipn i texts));
              log := log w ++ evs ++
                     [EvSetProgress (batch_progress i (length texts));
                      EvSetData (td ++ pairs_from net (requests w)
                                          (firstn BATCH_SIZE (skipn i texts)))] |})
        /\ posts evs = firstn BATCH_SIZE (skipn i texts)
    | Some (q, t) =>
        batch_step net texts i td w =
          (Abrupt t,
           {| ui := ui w; requests := requests w + S q; log := log w ++ evs |})
        /\ posts evs = firstn (S q) (firstn BATCH_SIZE (skipn i texts))
    end.
Proof.
  unfold batch_step, translateBatch. rewrite slice_batch.
  set (batch := firstn BATCH_SIZE (skipn i texts)).
  destruct (translateBatch_from_run net batch [] w) as [evs (C & H)].
  exists evs. split; [exact C|].
  destruct (first_quota net (requests w) batch) as [[q t]|];
    destruct H as [H P]; unfold bind; rewrite H; [auto|].
  split; [|exact P].
  cbn [app]. rewrite (forEach_push_pairs net [] batch).
  unfold setProgress, setData, bind, emit, set_ui, ret.
  cbn [ui requests log loading data error originalFileName progress].
  rewrite <- !app_assoc. reflexivity.
Qed.

Lemma upload_loop_exit (fuel : nat) (texts : list string) (i : nat)
    (td : list TranslatedData) (w : World) :
  length texts <= i -> upload_loop net fuel texts i td w = Some (td, w).
Proof.
  intros H. apply Nat.ltb_ge in H. destruct fuel; cbn [upload_loop]; rewrite H; reflexivity.
Qed.

Lemma loop_checkpoints_S (n r i : nat) (td : list TranslatedData)
    (rest : list string) (b : nat) :
  b = 0 \/ BATCH_SIZE <= length rest ->
  loop_checkpoints net n r i td rest (S b) =
  (batch_progress i n, td ++ pairs_from net r (firstn BATCH_SIZE rest))
    :: loop_checkpoints net n (r + length (firstn BATCH_SIZE rest)) (i + BATCH_SIZE)
         (td ++ pairs_from net r (firstn BATCH_SIZE rest))
         (skipn BATCH_SIZE rest) b.
Proof.
  intros H. unfold loop_checkpoints. cbn [seq map].
  rewrite Nat.mul_0_r, Nat.add_0_r, Nat.mul_1_r. f_equal.
  rewrite <- seq_shift, map_map. apply map_ext_in. intros m Hm.
  apply in_seq in Hm. destruct H as [H|H]; [lia|].
  f_equal.
  - f_equal. lia.
  - replace (BATCH_SIZE * S (S m)) with (BATCH_SIZE + BATCH_SIZE * S m) by lia.
    rewrite firstn_plus, pairs_from_app, app_assoc. reflexivity.
Qed.

End LoopFacts.

Lemma batches_last (len : nat) :
  0 < len -> len <= BATCH_SIZE -> (len + (BATCH_SIZE - 1)) / BATCH_SIZE = 1.
Proof.
  unfold BATCH_SIZE. intros H1 H2.
  symmetry. apply (Nat.div_unique _ _ _ (len - 1)); lia.
Qed.

Lemma batches_more (len : nat) :
  (BATCH_SIZE + len + (BATCH_SIZE - 1)) / BATCH_SIZE =
  S ((len + (BATCH_SIZE - 1)) / BATCH_SIZE).
Proof.
  replace (BATCH_SIZE + len + (BATCH_SIZE - 1))
    with (1 * BATCH_SIZE + (len + (BATCH_SIZE - 1))) by lia.
  rewrite Nat.div_add_l by (unfold BATCH_SIZE; lia). reflexivity.
Qed.

Lemma batches_shift (q : nat) : (BATCH_SIZE + q) / BATCH_SIZE = S (q / BATCH_SIZE).
Proof.
  replace (BATCH_SIZE + q) with (1 * BATCH_SIZE + q) by lia.
  rewrite Nat.div_add_l by (unfold BATCH_SIZE; lia). reflexivity.
Qed.

Section LoopRun.

Variable net : nat -> string -> PostOutcome.
Variable texts : list string.

(** The loop terminates within [length texts] iterations.  Without quota
    error it sends every text left and returns a pair for each; at the
    first quota error it stops right after the failing request, keeps the
    pairs of the batches completed before and sets the error message.  In
    both cases it emits one checkpoint per completed batch. *)
Lemma upload_loop_run (fuel i : nat) (td : list TranslatedData) (w : World) :
  length (skipn i texts) <= fuel ->
  exists u' evs,
    match first_quota net (requests w) (skipn i texts) with
    | None =>
        upload_loop net fuel texts i td w =
          Some (td ++ pairs_from net (requests w) (skipn i texts),
                {| ui := u'; requests := requests w + length (skipn i texts);
                   log := log w ++ evs |})
        /\ posts evs = skipn i texts
        /\ error u' = error (ui w)
        /\ checkpoints evs =
             loop_checkpoints net (length texts) (requests w) i td (skipn i texts)
               ((length (skipn i texts) + (BATCH_SIZE - 1)) / BATCH_SIZE)
    | Some (q, t) =>
        upload_loop net fuel texts i td w =
          Some (td ++ pairs_from net (requests w)
                        (firstn (BATCH_SIZE * (q / BATCH_SIZE)) (skipn i texts)),
                {| ui := u'; requests := requests w + S q; log := log w ++ evs |})
        /\ posts evs = firstn (S q) (skipn i texts)
        /\ error u' = message_of t
        /\ checkpoints evs =
             loop_checkpoints net (length texts) (requests w) i td (skipn i texts)
               (q / BATCH_SIZE)
    end.
Proof.
  revert i td w. induction fuel as [|f IH]; intros i td w Hfuel.
  - assert (E : skipn i texts = []) by (apply length_zero_iff_nil; lia).
    rewrite upload_loop_exit by (rewrite length_skipn in Hfuel; lia).
    rewrite E. cbn [first_quota pairs_from length]. exists (ui w), [].
    rewrite !app_nil_r, Nat.add_0_r. destruct w; cbn. repeat split.
  - destruct (Nat.ltb_spec i (length texts)) as [Hi|Hi].
    2:{ assert (E : skipn i texts = []) by (apply skipn_all2; exact Hi).
        rewrite upload_loop_exit by exact Hi.
        rewrite E. cbn [first_quota pairs_from length]. exists (ui w), [].
        rewrite !app_nil_r, Nat.add_0_r. destruct w; cbn. repeat split. }
    cbn [upload_loop]. apply Nat.ltb_lt in Hi as Hi'. rewrite Hi'. clear Hi'.
    destruct (batch_step_run net texts i td w) as [evsb (Cb & Hb)].
    set (rest := skipn i texts) in *.
    set (batch := firstn BATCH_SIZE rest) in *.
    assert (Hrest : rest = batch ++ skipn (i + BATCH_SIZE) texts).
    { rewrite skipn_batch. symmetry. apply firstn_skipn. }
    assert (Hlen : length rest = length texts - i) by apply length_skipn.
    pose proof (f_equal (@length _) Hrest) as Hsum. rewrite length_app in Hsum.
    assert (Hlb : length batch = Nat.min BATCH_SIZE (length rest)) by apply length_firstn.
    set (rest' := skipn (i + BATCH_SIZE) texts) in *.
    assert (Hrest' : rest' = skipn BATCH_SIZE rest) by apply skipn_batch.
    assert (Hlen' : length rest' = length texts - (i + BATCH_SIZE)) by apply length_skipn.
    pose proof (first_quota_app net batch rest' (requests w)) as Hfq.
    rewrite <- Hrest in Hfq. rewrite Hfq. clear Hfq.
    assert (HB : BATCH_SIZE = 10) by reflexivity.
    destruct (first_quota net (requests w) batch) as [[q t]|] eqn:Fb.
    + destruct Hb as [Hb Pb]. rewrite Hb.
      destruct (first_quota_sound net _ _ _ _ Fb) as (Q & Lq & _ & _).
      rewrite Q.
      exists {| loading := loading (ui w); data := data (ui w);
                error := message_of t;
                originalFileName := originalFileName (ui w);
                progress := progress (ui w) |},
             (evsb ++ [EvSetError (message_of t)]).
      rewrite Nat.div_small by lia.
      rewrite Nat.mul_0_r, firstn_O. cbn [pairs_from]. rewrite app_nil_r.
      split; [|split; [|split]].
      * unfold setError, bind, emit, set_ui.
        cbn [snd ui requests log]. rewrite <- app_assoc. reflexivity.
      * rewrite posts_app, Pb. cbn [posts flat_map]. rewrite app_nil_r.
        rewrite Hrest, firstn_app.
        replace (S q - length batch) with 0 by lia.
        rewrite firstn_O, app_nil_r. reflexivity.
      * reflexivity.
      * rewrite client_events_checkpoints by exact Cb. reflexivity.
    + destruct Hb as [Hb Pb]. rewrite Hb.
      match goal with |- context [upload_loop net f texts _ ?td' ?w'] =>
        destruct (IH (i + BATCH_SIZE) td' w') as (u'' & evs' & H') end.
      { fold rest'. lia. }
      fold rest' in H'. cbn [requests ui log error] in H'.
      set (p := batch_progress i (length texts)) in *.
      set (td' := td ++ pairs_from net (requests w) batch) in *.
      exists u'', (evsb ++ [EvSetProgress p; EvSetData td'] ++ evs').
      destruct (first_quota net (requests w + length batch) rest') as [[q' t]|] eqn:F'.
      * destruct H' as (H' & P' & E' & K'). rewrite H'. cbn [option_map fst snd].
        destruct (first_quota_sound net _ _ _ _ F') as (_ & Lq' & _ & _).
        assert (Hb10 : length batch = BATCH_SIZE) by lia.
        rewrite Hb10 in *. rewrite batches_shift.
        split; [|split; [|split]].
        -- replace (BATCH_SIZE * S (q' / BATCH_SIZE))
             with (BATCH_SIZE + BATCH_SIZE * (q' / BATCH_SIZE)) by lia.
           rewrite firstn_plus, <- Hrest'. fold batch.
           rewrite pairs_from_app, Hb10. subst td'.
           f_equal. apply run_eq; [|lia|]; rewrite <- !app_assoc; reflexivity.
        -- rewrite posts_app, Pb. cbn [app]. rewrite !posts_cons, P'.
           replace (S (BATCH_SIZE + q')) with (BATCH_SIZE + S q') by lia.
           rewrite firstn_plus, <- Hrest'. reflexivity.
        -- exact E'.
        -- rewrite client_events_checkpoints by exact Cb.
           cbn [app checkpoints]. rewrite K'.
           rewrite loop_checkpoints_S by (right; lia).
           fold batch. rewrite <- Hrest', Hb10. reflexivity.
      * destruct H' as (H' & P' & E' & K'). rewrite H'. cbn [option_map].
        split; [|split; [|split]].
        -- f_equal. apply run_eq.
           ++ subst td'. rewrite Hrest at 1.
              rewrite pairs_from_app, <- app_assoc. reflexivity.
           ++ lia.
           ++ rewrite <- !app_assoc. reflexivity.
        -- rewrite posts_app, Pb. cbn [app]. rewrite !posts_cons, P'.
           symmetry. exact Hrest.
        -- exact E'.
        -- rewrite client_events_checkpoints by exact Cb.
           cbn [app checkpoints]. rewrite K'.
           destruct (Nat.eq_dec (length rest') 0) as [Z|NZ].
           ++ rewrite Z. replace ((0 + (BATCH_SIZE - 1)) / BATCH_SIZE) with 0
                by reflexivity.
              rewrite batches_last by lia.
              rewrite loop_checkpoints_S by (left; reflexivity).
              fold batch. rewrite <- Hrest'. reflexivity.
           ++ assert (Hb10 : length batch = BATCH_SIZE) by lia.
              replace (length rest) with (BATCH_SIZE + length rest') by lia.
              rewrite batches_more.
              rewrite loop_checkpoints_S by (right; lia).
              fold batch. rewrite <- Hrest'. reflexivity.
Qed.

End LoopRun.

Lemma last_cons {A} (x d : A) (l : list A) : last (x :: l) d = last l x.
Proof.
  revert x d. induction l as [|y l IH]; intros x d; [reflexivity|].
  change (last (x :: y :: l) d) with (last (y :: l) d).
  rewrite (IH y d), (IH y x). reflexivity.
Qed.

Section LoopTrace.

Variable net : nat -> string -> PostOutcome.
Variable texts : list string.

(** Whatever the endpoint answers, the loop sets the progress only at
    checkpoints, and the [data] state it leaves is the one of its last
    checkpoint. *)
Lemma upload_loop_trace (fuel i : nat) (td td' : list TranslatedData) (w w' : World) :
  upload_loop net fuel texts i td w = Some (td', w') ->
  exists evs,
    log w' = log w ++ evs /\
    progress_values evs = map fst (checkpoints evs) /\
    data (ui w') = last (map snd (checkpoints evs)) (data (ui w)).
Proof.
  revert i td w. induction fuel as [|f IH]; intros i td w; cbn [upload_loop].
  - destruct (i <? length texts); [discriminate|].
    intros H; inversion H; subst. exists []. rewrite app_nil_r. auto.
  - destruct (i <? length texts).
    2:{ intros H; inversion H; subst. exists []. rewrite app_nil_r. auto. }
    destruct (batch_step_run net texts i td w) as [evsb (Cb & Hb)].
    destruct (first_quota net (requests w) (firstn BATCH_SIZE (skipn i texts)))
      as [[q t]|] eqn:Fb; destruct Hb as [Hb _]; rewrite Hb.
    + destruct (first_quota_sound net _ _ _ _ Fb) as (Q & _). rewrite Q.
      intros H; inversion H; subst; clear H.
      exists (evsb ++ [EvSetError (message_of t)]).
      unfold setError, bind, emit, set_ui. cbn [snd ui requests log data].
      rewrite <- app_assoc, progress_values_app, client_events_checkpoints by exact Cb.
      rewrite client_events_no_progress by exact Cb. auto.
    + intros H. apply IH in H. destruct H as (evs' & L & P & D).
      cbn [ui log data] in L, D.
      match type of L with _ = (_ ++ _ ++ ?cp) ++ _ =>
        exists (evsb ++ cp ++ evs') end.
      split; [rewrite L, <- !app_assoc; reflexivity|].
      rewrite progress_values_app, client_events_checkpoints by exact Cb.
      rewrite client_events_no_progress by exact Cb.
      cbn [app checkpoints progress_values flat_map map fst snd].
      fold (progress_values evs'). rewrite P, last_cons. auto.
Qed.

End LoopTrace.

Lemma progress_values_cons (e : Event) (evs : list Event) :
  progress_values (e :: evs) =
  match e with EvSetProgress p => p :: progress_values evs | _ => progress_values evs end.
Proof. destruct e; reflexivity. Qed.

Lemma upload_prologue (name : string) (w : World) :
  snd (setOriginalFileName name
         (snd ((setLoading true ;;; setError "" ;;; setProgress 0 ;;; setData []) w))) =
  {| ui := {| loading := true; data := []; error := "";
              originalFileName := name; progress := 0 |};
     requests := requests w;
     log := log w ++ [EvSetLoading true; EvSetError ""; EvSetProgress 0%Q;
                      EvSetData []; EvSetOriginalFileName name] |}.
Proof.
  destruct w as [[l d e o p] r lg].
  cbv [setOriginalFileName setLoading setError setProgress setData bind emit set_ui
       snd ui requests log loading data error originalFileName progress].
  repeat rewrite <- app_assoc. reflexivity.
Qed.

Lemma upload_epilogue (w : World) :
  snd ((setLoading false ;;; setProgress 100) w) =
  {| ui := {| loading := false; data := data (ui w); error := error (ui w);
              originalFileName := originalFileName (ui w); progress := 100 |};
     requests := requests w;
     log := log w ++ [EvSetLoading false; EvSetProgress 100%Q] |}.
Proof.
  destruct w as [[l d e o p] r lg].
  cbv [setLoading setProgress bind emit set_ui
       snd ui requests log loading data error originalFileName progress].
  repeat rewrite <- app_assoc. reflexivity.
Qed.

Lemma setData_run (d : list TranslatedData) (w : World) :
  snd (setData d w) =
  {| ui := {| loading := loading (ui w); data := d; error := error (ui w);
              originalFileName := originalFileName (ui w);
              progress := progress (ui w) |};
     requests := requests w;
     log := log w ++ [EvSetData d] |}.
Proof. reflexivity. Qed.

Ltac exists_upload_world name evs3 td' w2 :=
  let Z := fresh "Z" in
  destruct (0 <? length td') eqn:Z;
  eexists; exists (upload_events name evs3 td'); unfold upload_events;
  rewrite Z;
  (split; [reflexivity|]);
  subst w2;
  rewrite ?upload_epilogue, ?setData_run, ?upload_prologue;
  cbn [ui requests log loading data error originalFileName progress];
  (split; [repeat rewrite <- app_assoc; cbn [app]; reflexivity|]);
  (split; [reflexivity|]); (split; [reflexivity|]).

Section UploadRun.

Variable net : nat -> string -> PostOutcome.

Lemma loop_checkpoints_last (n r i : nat) (td d : list TranslatedData)
    (rest : list string) (b : nat) :
  last (map snd (loop_checkpoints net n r i td rest b)) d =
  match b with
  | O => d
  | S _ => td ++ pairs_from net r (firstn (BATCH_SIZE * b) rest)
  end.
Proof.
  destruct b as [|b]; [reflexivity|].
  unfold loop_checkpoints. rewrite seq_S, !map_app. cbn [map snd Nat.add].
  apply last_last.
Qed.

(** The whole handler on a file that parses: it returns, ends with progress
    100 and [loading] off, and leaves in [data] the pairs of the completed
    batches. *)
Lemma handleFileUpload_run (file : File) (jsonData : list Row) (w : World) :
  file_rows file = Some jsonData ->
  exists w' evs,
    handleFileUpload net (Some file) w = Some w' /\
    log w' = log w ++ evs /\
    progress (ui w') = 100%Q /\
    loading (ui w') = false /\
    progress_values evs =
      (0%Q :: map fst (loop_checkpoints net (length (textsToTranslate_of jsonData))
                         (requests w) 0 [] (textsToTranslate_of jsonData)
                         (completed_batches net (requests w)
                            (textsToTranslate_of jsonData)))) ++ [100%Q] /\
    match first_quota net (requests w) (textsToTranslate_of jsonData) with
    | None =>
        requests w' = requests w + length (textsToTranslate_of jsonData) /\
        posts evs = textsToTranslate_of jsonData /\
        data (ui w') = pairs_from net (requests w) (textsToTranslate_of jsonData) /\
        error (ui w') = ""
    | Some (q, t) =>
        requests w' = requests w + S q /\
        posts evs = firstn (S q) (textsToTranslate_of jsonData) /\
        data (ui w') =
          pairs_from net (requests w)
            (firstn (BATCH_SIZE * (q / BATCH_SIZE)) (textsToTranslate_of jsonData)) /\
        error (ui w') = message_of t
    end.
Proof.
  intros Hrows. unfold handleFileUpload. rewrite Hrows.
  set (texts := textsToTranslate_of jsonData).
  set (w2 := snd (setOriginalFileName (file_name file) _)).
  destruct (upload_loop_run net texts (length texts) 0 [] w2) as (u3 & evs3 & H3);
    [cbn [skipn]; lia|].
  cbn [skipn] in H3. change (requests w2) with (requests w) in H3.
  unfold completed_batches.
  destruct (first_quota net (requests w) texts) as [[q t]|] eqn:F;
    destruct H3 as (H3 & P3 & E3 & K3); rewrite H3;
    destruct (upload_loop_trace _ _ _ _ _ _ _ _ H3) as (evs & L & PV & D);
    cbn [log ui] in L, D; apply app_inv_head in L; subst evs;
    rewrite K3 in PV, D; rewrite loop_checkpoints_last in D;
    change (data (ui w2)) with (@nil TranslatedData) in D;
    cbn [app] in D, PV, H3 |- *;
    match goal with |- context [0 <? length ?td'] =>
      exists_upload_world (file_name file) evs3 td' w2 end.
  all: split;
    [ cbn [app]; rewrite ?progress_values_cons, progress_values_app, PV;
      rewrite ?progress_values_cons; reflexivity |].
  all: split; [reflexivity|].
  all: split;
    [ cbn [app]; rewrite ?posts_cons, posts_app, P3; rewrite ?posts_cons;
      cbn [posts flat_map]; apply app_nil_r |].
  all: split; [|try exact E3]; try reflexivity.
  - destruct (q / BATCH_SIZE); [|exact D].
    rewrite D, Nat.mul_0_r, firstn_O. reflexivity.
  - apply Nat.ltb_ge in Z. rewrite pairs_from_length in Z.
    assert (E : texts = []) by (apply length_zero_iff_nil; lia).
    rewrite E in *. exact D.
Qed.

End UploadRun.

(* ------------------------------------------------------------------ *)
(** * The translation client: error classes *)

Lemma translateText_rejected (net : nat -> string -> PostOutcome)
    (text : string) (w : World) (t : Thrown) :
  net (requests w) text = Rejected t ->
  fst (translateText net text w) = Abrupt (classify t).
Proof.
  intros H. unfold translateText, try_catch, bind, axios_post. rewrite H. reflexivity.
Qed.

Lemma status_is_true (e : AxiosError) (code : Z) :
  status_is e code = true <-> has_status e code.
Proof.
  unfold status_is, has_status. destruct (response e) as [r|].
  - rewrite Z.eqb_eq. split.
    + intros H. exists r. auto.
    + intros (r' & E & H). inversion E; subst. reflexivity.
  - split; [discriminate|]. intros (r' & E & _). discriminate.
Qed.

Lemma response_quota_true (e : AxiosError) :
  response_message_includes_quota e = true <-> server_mentions_quota e.
Proof.
  unfold response_message_includes_quota, response_message, server_mentions_quota,
    server_message.
  destruct (response e) as [r|].
  - destruct (data_error_message r) as [m|] eqn:E.
    + split.
      * intros H. exists m. split; [exists r; auto|exact H].
      * intros (m' & (r' & E1 & E2) & H). inversion E1; subst.
        rewrite E in E2. inversion E2; subst. exact H.
    + split; [discriminate|].
      intros (m' & (r' & E1 & E2) & _). inversion E1; subst.
      rewrite E in E2. discriminate.
  - split; [discriminate|]. intros (m' & (r' & E1 & _) & _). discriminate.
Qed.

(** C4.  When the request is rejected with an axios error, [translateText]
    throws, in this order of precedence: the quota error (whose message
    contains "quota") when the status is 429 or the server's error message
    contains "quota"; otherwise the invalid-key error when the status is 401;
    otherwise an error carrying the server's error message when there is a
    non-empty one, and the transport's message when there is none. *)
Theorem translateText_classification
    (net : nat -> string -> PostOutcome) (text : string) (w : World) (e : AxiosError) :
  net (requests w) text = Rejected (ThrownAxios e) ->
  (has_status e 429 \/ server_mentions_quota e ->
     fst (translateText net text w) = Abrupt (ThrownError QUOTA_MESSAGE)
     /\ is_quota (ThrownError QUOTA_MESSAGE) = true)
  /\ (~ has_status e 429 -> ~ server_mentions_quota e -> has_status e 401 ->
        fst (translateText net text w) = Abrupt (ThrownError INVALID_KEY_MESSAGE))
  /\ (~ has_status e 429 -> ~ server_mentions_quota e -> ~ has_status e 401 ->
        exists m,
          fst (translateText net text w) = Abrupt (ThrownError m)
          /\ (forall sm, server_message e sm -> sm <> "" -> m = sm)
          /\ ((forall sm, server_message e sm -> sm = "") -> m = axios_message e)).
Proof.
  intros H. rewrite (translateText_rejected net text w _ H). unfold classify.
  pose proof (status_is_true e 429) as S429.
  pose proof (status_is_true e 401) as S401.
  pose proof (response_quota_true e) as SQ.
  split; [|split].
  - intros [A|A].
    + apply S429 in A. rewrite A. split; reflexivity.
    + apply SQ in A. rewrite A, orb_true_r. split; reflexivity.
  - intros N1 N2 A.
    destruct (status_is e 429); [exfalso; apply N1, S429; reflexivity|].
    destruct (response_message_includes_quota e);
      [exfalso; apply N2, SQ; reflexivity|].
    apply S401 in A. rewrite A. reflexivity.
  - intros N1 N2 N3.
    destruct (status_is e 429); [exfalso; apply N1, S429; reflexivity|].
    destruct (response_message_includes_quota e);
      [exfalso; apply N2, SQ; reflexivity|].
    destruct (status_is e 401); [exfalso; apply N3, S401; reflexivity|].
    cbn [orb]. eexists. split; [reflexivity|].
    unfold or_else, response_message, server_message.
    destruct (response e) as [r|].
    + destruct (data_error_message r) as [sm|] eqn:D.
      * split.
        -- intros sm' (r' & E1 & E2) NE. inversion E1; subst.
           rewrite D in E2. inversion E2; subst.
           destruct sm'; [congruence|reflexivity].
        -- intros A. rewrite (A sm); [reflexivity|]. exists r. auto.
      * split; [|reflexivity]. intros sm' (r' & E1 & E2). inversion E1; subst.
        rewrite D in E2. discriminate.
    + split; [|reflexivity]. intros sm' (r' & E1 & _). discriminate.
Qed.

Lemma translateText_classification_witness :
  fst (translateText (fun _ _ => Rejected (ThrownAxios Scenario.error_429))
         "hello" initial_world) = Abrupt (ThrownError QUOTA_MESSAGE)
  /\ fst (translateText (fun _ _ => Rejected (ThrownAxios Scenario.error_401))
            "hello" initial_world) = Abrupt (ThrownError INVALID_KEY_MESSAGE)
  /\ exists m,
       fst (translateText (fun _ _ => Rejected (ThrownAxios Scenario.error_500))
              "hello" initial_world) = Abrupt (ThrownError m)
       /\ m = "Internal error".
Proof.
  assert (no_status : forall (e : AxiosError) (r : AxiosResponse) (code : Z),
             response e = Some r -> status r <> code -> ~ has_status e code).
  { intros e r code E N (r' & E' & S'). rewrite E in E'. inversion E'; subst.
    exact (N eq_refl). }
  assert (no_quota : forall (e : AxiosError) (r : AxiosResponse) (m : string),
             response e = Some r -> data_error_message r = Some m ->
             includes "quota" m = false -> ~ server_mentions_quota e).
  { intros e r m E D N (m' & (r' & E1 & E2) & I). rewrite E in E1.
    inversion E1; subst. rewrite D in E2. inversion E2; subst.
    rewrite N in I. discriminate. }
  split; [|split].
  - apply (translateText_classification
             (fun _ _ => Rejected (ThrownAxios Scenario.error_429))
             "hello" initial_world Scenario.error_429 eq_refl).
    left. eexists. split; reflexivity.
  - apply (translateText_classification
             (fun _ _ => Rejected (ThrownAxios Scenario.error_401))
             "hello" initial_world Scenario.error_401 eq_refl).
    + eapply no_status; [reflexivity|discriminate].
    + eapply no_quota; reflexivity.
    + eexists. split; reflexivity.
  - destruct (translateText_classification
                (fun _ _ => Rejected (ThrownAxios Scenario.error_500))
                "hello" initial_world Scenario.error_500 eq_refl)
      as (_ & _ & H).
    destruct H as (m & E & S & _).
    + eapply no_status; [reflexivity|discriminate].
    + eapply no_quota; reflexivity.
    + eapply no_status; [reflexivity|discriminate].
    + exists m. split; [exact E|]. apply S.
      * eexists. split; reflexivity.
      * discriminate.
Defined.

(* ------------------------------------------------------------------ *)
(** * The batch loop: requests and sleeps *)

Lemma timing_app (a b : list Event) : timing (a ++ b) = timing a ++ timing b.
Proof. unfold timing. apply filter_app. Qed.

Lemma translateText_timing (net : nat -> string -> PostOutcome)
    (text : string) (w : World) :
  exists evs,
    translateText net text w =
      (attempt net (requests w) text,
       {| ui := ui w; requests := S (requests w);
          log := log w ++ EvPost text :: evs |})
    /\ timing evs = [].
Proof.
  unfold attempt, translateText, try_catch, bind, axios_post; simpl.
  destruct (net (requests w) text) as [[s|]|t]; [destruct (truthy s)|..];
    simpl; rewrite <- ?app_assoc; simpl; eexists; repeat split.
Qed.

(** In every batch the requests go out in the order of the texts, and the
    loop sleeps after a call exactly when the call succeeded. *)
Lemma translateBatch_timing (net : nat -> string -> PostOutcome)
    (texts results : list string) (w : World) :
  timing (log (snd (translateBatch_from net results texts w))) =
  timing (log w) ++ batch_timing net (requests w) texts.
Proof.
  revert results w. induction texts as [|text rest IH]; intros results w.
  - cbn. rewrite app_nil_r. reflexivity.
  - destruct (translateText_timing net text w) as (evs & E & T).
    cbn [translateBatch_from batch_timing]. unfold bind, try_catch. rewrite E.
    destruct (attempt net (requests w) text) as [s|t].
    + cbn [delay emit ret]. rewrite IH. cbn [log requests].
      rewrite !timing_app. cbn [timing filter]. fold (timing evs). rewrite T.
      rewrite <- !app_assoc. reflexivity.
    + destruct (is_quota t).
      * cbn [throw snd log]. rewrite timing_app. cbn [timing filter].
        fold (timing evs). rewrite T. reflexivity.
      * cbn [console_error emit ret]. rewrite IH. cbn [log requests].
        rewrite !timing_app. cbn [timing filter]. fold (timing evs). rewrite T.
        rewrite <- !app_assoc. reflexivity.
Qed.

(** C6, on the code as it is.  In the batch ["a"; "b"], when the request for
    ["a"] is answered with HTTP 500 and the one for ["b"] with a translation,
    [translateBatch] returns the placeholder and the translation, and the
    request for ["b"] follows the one for ["a"] with no sleep in between: the
    only sleep is the one after the successful call. *)
Theorem no_delay_after_failed_call :
  let run := translateBatch (Scenario.net_failing 0 500) ["a"; "b"] initial_world in
  fst run = Normal [CONFIG.DEBUG_TRANSLATED_PERSIAN; "fa:b"]
  /\ timing (log (snd run)) = [EvPost "a"; EvPost "b"; EvDelay RATE_LIMIT_DELAY].
Proof. split; reflexivity. Qed.

(** After a call that succeeds the loop does sleep before the next one. *)
Lemma delay_after_successful_call :
  timing (log (snd (translateBatch Scenario.net_ok ["a"; "b"] initial_world))) =
  [EvPost "a"; EvDelay RATE_LIMIT_DELAY; EvPost "b"; EvDelay RATE_LIMIT_DELAY].
Proof. reflexivity. Qed.

(* ------------------------------------------------------------------ *)
(** * Export *)

Lemma export_columns (pairs : list TranslatedData) (hdr : list string) :
  hdr = ["Original"; "Translated"] ->
  fold_left add_keys (map export_row pairs) hdr = hdr.
Proof.
  intros ->. induction pairs as [|p pairs IH]; [reflexivity|].
  cbn [map fold_left]. exact IH.
Qed.

Lemma export_sheet_rows (label : string) (pairs : list TranslatedData) :
  sheet_rows (json_to_sheet
                ([("Original", "Original Text"); ("Translated", label)]
                   :: map export_row pairs) true) =
  sheet_rows (export_sheet label pairs).
Proof.
  unfold json_to_sheet, export_sheet. cbn [sheet_rows fold_left].
  change (add_keys [] [("Original", "Original Text"); ("Translated", label)])
    with ["Original"; "Translated"].
  rewrite export_columns by reflexivity.
  cbn [map]. f_equal. rewrite map_map. apply map_ext. intros p. reflexivity.
Qed.

(** C7, as the code has it.  When [writeFile] succeeds, [handleExport] writes
    exactly one file: a workbook with the single sheet ["Translations"], whose
    first row is ["Original Text"; "Persian Translation"] and whose following
    rows are the pairs of [data], one per row and in order, two cells each;
    the file is named [translated_<originalFileName>], or
    [translated_document.xlsx] when [originalFileName] is empty.  Nothing
    else changes. *)
Theorem export_writes_pairs_under_header
    (writeFile_outcome : Workbook -> string -> option Thrown) (w : World) :
  let wb := [("Translations", export_sheet "Persian Translation" (data (ui w)))] in
  let name := export_name (originalFileName (ui w)) in
  writeFile_outcome wb name = None ->
  handleExport writeFile_outcome w =
    (Normal tt,
     {| ui := ui w; requests := requests w;
        log := log w ++ [EvWriteFile wb name] |}).
Proof.
  intros wb name H.
  unfold handleExport, try_catch, export_body, bind, get_ui, writeFile.
  set (ws := json_to_sheet _ true).
  assert (E : {| sheet_rows := sheet_rows ws; sheet_cols := [30%Z; 30%Z] |} =
              export_sheet "Persian Translation" (data (ui w))).
  { unfold ws. rewrite export_sheet_rows. reflexivity. }
  rewrite E.
  assert (N : (if truthy (originalFileName (ui w))
               then ("translated_" ++ originalFileName (ui w))%string
               else "translated_document.xlsx") = name).
  { unfold name, export_name. destruct (originalFileName (ui w)); reflexivity. }
  rewrite N. unfold book_append_sheet, book_new. cbn [app].
  fold wb. rewrite H. reflexivity.
Qed.

Lemma export_writes_pairs_under_header_witness :
  handleExport Scenario.writeFile_ok Scenario.two_pairs =
    (Normal tt,
     {| ui := ui Scenario.two_pairs; requests := 2;
        log := [EvWriteFile
                  [("Translations",
                    {| sheet_rows := [[Some "Original Text"; Some "Persian Translation"];
                                      [Some "a"; Some "A"]; [Some "b"; Some "B"]];
                       sheet_cols := [30%Z; 30%Z] |})]
                  "translated_in.xlsx"] |}).
Proof.
  apply (export_writes_pairs_under_header Scenario.writeFile_ok Scenario.two_pairs).
  reflexivity.
Defined.

(** C7, as stated, fails: the header row of the file written for two pairs
    is not ["Original Text"; "Translation"]. *)
Lemma export_header_is_not_translation :
  written_headers (log (snd (handleExport Scenario.writeFile_ok Scenario.two_pairs)))
  <> [Some [Some "Original Text"; Some "Translation"]].
Proof. vm_compute. discriminate. Qed.

(** C8.  When the [try] block of [handleExport] throws, the handler catches
    it and returns normally, the error shown is the export error message, and
    [data] is what it was; so are the other state variables. *)
Theorem export_failure_keeps_data
    (writeFile_outcome : Workbook -> string -> option Thrown)
    (w w1 : World) (t : Thrown) :
  export_body writeFile_outcome w = (Abrupt t, w1) ->
  exists w',
    handleExport writeFile_outcome w = (Normal tt, w')
    /\ error (ui w') = EXPORT_ERROR_MESSAGE
    /\ data (ui w') = data (ui w)
    /\ originalFileName (ui w') = originalFileName (ui w)
    /\ progress (ui w') = progress (ui w)
    /\ loading (ui w') = loading (ui w)
    /\ log w' = log w ++ [EvConsoleError "Export error:"; EvSetError EXPORT_ERROR_MESSAGE].
Proof.
  intros H. unfold handleExport, try_catch. rewrite H.
  assert (E : w1 = w).
  { unfold export_body, bind, get_ui, writeFile in H.
    match type of H with (match ?o with _ => _ end) = _ =>
      destruct o; inversion H; reflexivity end. }
  subst w1. eexists. split; [reflexivity|].
  unfold console_error, setError, bind, emit, set_ui.
  cbn [ui requests log loading data error originalFileName progress].
  rewrite <- app_assoc. repeat split.
Qed.

Lemma export_failure_keeps_data_witness :
  exists w',
    handleExport Scenario.writeFile_failing Scenario.two_pairs = (Normal tt, w')
    /\ error (ui w') = EXPORT_ERROR_MESSAGE
    /\ data (ui w') = data (ui Scenario.two_pairs)
    /\ originalFileName (ui w') = originalFileName (ui Scenario.two_pairs)
    /\ progress (ui w') = progress (ui Scenario.two_pairs)
    /\ loading (ui w') = loading (ui Scenario.two_pairs)
    /\ log w' = log Scenario.two_pairs
                ++ [EvConsoleError "Export error:"; EvSetError EXPORT_ERROR_MESSAGE].
Proof.
  apply (export_failure_keeps_data Scenario.writeFile_failing Scenario.two_pairs
           Scenario.two_pairs (ThrownError "cannot save file")).
  reflexivity.
Defined.

(* ------------------------------------------------------------------ *)
(** * Runs of the upload handler *)

Section Runs.

Variable net : nat -> string -> PostOutcome.

Lemma quota_free_tail (r : nat) (x : string) (l : list string) :
  quota_free net r (x :: l) -> quota_free net (S r) l.
Proof.
  intros H k text t N A. apply (H (S k) text t); [exact N|].
  rewrite <- A. f_equal. lia.
Qed.

Lemma quota_free_first_quota (r : nat) (l : list string) :
  quota_free net r l <-> first_quota net r l = None.
Proof.
  split.
  - revert r. induction l as [|x l IH]; intros r H; [reflexivity|].
    cbn [first_quota]. rewrite (IH (S r) (quota_free_tail _ _ _ H)).
    destruct (attempt net r x) as [s|t] eqn:A; [reflexivity|].
    rewrite (H 0 x t); [reflexivity|reflexivity|].
    rewrite Nat.add_0_r. exact A.
  - intros H k text t. apply first_quota_none. exact H.
Qed.

Lemma first_quota_at_first_quota (r : nat) (l : list string) (q : nat) (t : Thrown) :
  first_quota_at net r l q t <-> first_quota net r l = Some (q, t).
Proof.
  split.
  - intros ((text & N & A) & Q & F).
    apply quota_free_first_quota in F.
    assert (L : q < length l) by (apply nth_error_Some; congruence).
    rewrite <- (firstn_skipn q l) at 1. rewrite first_quota_app, F.
    rewrite length_firstn, Nat.min_l by lia.
    destruct (skipn q l) as [|y rest] eqn:S.
    + apply (f_equal (@length _)) in S. rewrite length_skipn in S. cbn in S. lia.
    + assert (y = text).
      { rewrite <- (firstn_skipn q l), nth_error_app2 in N
          by (rewrite length_firstn; lia).
        rewrite length_firstn, Nat.min_l, Nat.sub_diag, S in N by lia.
        inversion N. reflexivity. }
      subst y. cbn [first_quota]. rewrite A, Q. cbn. rewrite Nat.add_0_r.
      reflexivity.
  - intros H. destruct (first_quota_sound net _ _ _ _ H) as (Q & L & N & F).
    split; [exact N|]. split; [exact Q|]. apply quota_free_first_quota. exact F.
Qed.

(** C1, as the code has it.  When item [q] (from 0) is the first whose
    attempt ends in a quota error, the handler returns after having sent
    the items up to and including that one and no other; the error shown is
    the message of the quota error, which contains "quota"; and [data]
    holds the pairs of the batches completed before, in order. *)
Theorem quota_error_stops_run (file : File) (jsonData : list Row) (w : World)
    (q : nat) (t : Thrown) :
  file_rows file = Some jsonData ->
  first_quota_at net (requests w) (textsToTranslate_of jsonData) q t ->
  exists w' evs,
    handleFileUpload net (Some file) w = Some w'
    /\ log w' = log w ++ evs
    /\ posts evs = firstn (S q) (textsToTranslate_of jsonData)
    /\ requests w' = requests w + S q
    /\ error (ui w') = message_of t
    /\ includes "quota" (error (ui w')) = true
    /\ data (ui w') =
         pairs_from net (requests w)
           (firstn (BATCH_SIZE * (q / BATCH_SIZE)) (textsToTranslate_of jsonData)).
Proof.
  intros Hrows Hq. apply first_quota_at_first_quota in Hq as F.
  destruct (handleFileUpload_run net file jsonData w Hrows)
    as (w' & evs & H & L & _ & _ & _ & R).
  rewrite F in R. destruct R as (R & P & D & E).
  exists w', evs. repeat split; auto.
  rewrite E. destruct Hq as (_ & Q & _). exact Q.
Qed.

(** C10.  When item [q] is the first whose attempt ends in a quota error,
    [S q] requests have been sent, yet [data] holds only the pairs of the
    [q / BATCH_SIZE] batches before the one of item [q]: its length is a
    multiple of [BATCH_SIZE], at most [q], and the items of the failing
    batch translated before item [q] have no pair. *)
Theorem quota_abort_keeps_whole_batches (file : File) (jsonData : list Row)
    (w : World) (q : nat) (t : Thrown) :
  file_rows file = Some jsonData ->
  first_quota_at net (requests w) (textsToTranslate_of jsonData) q t ->
  exists w',
    handleFileUpload net (Some file) w = Some w'
    /\ requests w' = requests w + S q
    /\ length (data (ui w')) = BATCH_SIZE * (q / BATCH_SIZE)
    /\ length (data (ui w')) mod BATCH_SIZE = 0
    /\ length (data (ui w')) <= q
    /\ (forall k, BATCH_SIZE * (q / BATCH_SIZE) <= k ->
                  nth_error (data (ui w')) k = None).
Proof.
  intros Hrows Hq. apply first_quota_at_first_quota in Hq as F.
  destruct (handleFileUpload_run net file jsonData w Hrows)
    as (w' & evs & H & L & _ & _ & _ & R).
  rewrite F in R. destruct R as (R & P & D & E).
  destruct (first_quota_sound net _ _ _ _ F) as (_ & Lq & _ & _).
  pose proof (Nat.Div0.mul_div_le q BATCH_SIZE) as Hle.
  assert (Hlen : length (data (ui w')) = BATCH_SIZE * (q / BATCH_SIZE)).
  { rewrite D, pairs_from_length, length_firstn. lia. }
  exists w'. repeat split; auto.
  - rewrite Hlen, Nat.mul_comm. apply Nat.Div0.mod_mul.
  - lia.
  - intros k Hk. apply nth_error_None. lia.
Qed.

(** C2.  When no attempt ends in a quota error, the handler returns with
    one pair per source string, in the order of the input: the pair at
    index [k] has the [k]-th string as its original, and as its translation
    what the attempt returned or, when the attempt failed, the placeholder;
    every string has been sent. *)
Theorem one_pair_per_input (file : File) (jsonData : list Row) (w : World) :
  file_rows file = Some jsonData ->
  quota_free net (requests w) (textsToTranslate_of jsonData) ->
  exists w' evs,
    handleFileUpload net (Some file) w = Some w'
    /\ log w' = log w ++ evs
    /\ posts evs = textsToTranslate_of jsonData
    /\ length (data (ui w')) = length (textsToTranslate_of jsonData)
    /\ map original (data (ui w')) = textsToTranslate_of jsonData
    /\ (forall k text,
          nth_error (textsToTranslate_of jsonData) k = Some text ->
          exists p,
            nth_error (data (ui w')) k = Some p
            /\ original p = text
            /\ match attempt net (requests w + k) text with
               | Normal s => translated p = s
               | Abrupt _ => translated p = CONFIG.DEBUG_TRANSLATED_PERSIAN
               end).
Proof.
  intros Hrows Hq. apply quota_free_first_quota in Hq as F.
  destruct (handleFileUpload_run net file jsonData w Hrows)
    as (w' & evs & H & L & _ & _ & _ & R).
  rewrite F in R. destruct R as (R & P & D & E).
  exists w', evs. rewrite D.
  repeat split; auto using pairs_from_length, pairs_from_original.
  intros k text N. eexists. split; [apply pairs_from_nth_error; exact N|].
  split; [reflexivity|]. cbn [translated]. unfold translation_of.
  destruct (attempt net (requests w + k) text); reflexivity.
Qed.

(** C9.  When no row of the file has a value in its first column, the
    handler returns with [data] empty and has sent no request. *)
Theorem empty_input_no_request (file : File) (jsonData : list Row) (w : World) :
  file_rows file = Some jsonData ->
  textsToTranslate_of jsonData = [] ->
  exists w' evs,
    handleFileUpload net (Some file) w = Some w'
    /\ log w' = log w ++ evs
    /\ data (ui w') = []
    /\ posts evs = []
    /\ requests w' = requests w.
Proof.
  intros Hrows Hnil.
  destruct (handleFileUpload_run net file jsonData w Hrows)
    as (w' & evs & H & L & _ & _ & _ & R).
  rewrite Hnil in R. cbn [first_quota pairs_from length] in R.
  destruct R as (R & P & D & E).
  exists w', evs. repeat split; auto. lia.
Qed.

End Runs.

(* ------------------------------------------------------------------ *)
(** * Progress *)

Lemma ratio_le (a b n : nat) :
  a <= b -> (inject_Z (Z.of_nat a) / inject_Z (Z.of_nat n)
             <= inject_Z (Z.of_nat b) / inject_Z (Z.of_nat n))%Q.
Proof.
  intros H. unfold Qdiv. apply Qmult_le_compat_r.
  - rewrite <- Zle_Qle. lia.
  - apply Qinv_le_0_compat. change 0%Q with (inject_Z 0). rewrite <- Zle_Qle. lia.
Qed.

Lemma batch_progress_mono (i j n : nat) :
  i <= j -> (batch_progress i n <= batch_progress j n)%Q.
Proof.
  intros H. unfold batch_progress. apply Q.min_le_compat_r.
  apply Qmult_le_compat_r; [|discriminate]. apply ratio_le. lia.
Qed.

Lemma batch_progress_bounds (i n : nat) :
  (0 <= batch_progress i n)%Q /\ (batch_progress i n <= 100)%Q.
Proof.
  unfold batch_progress. split; [|apply Q.le_min_r].
  apply Q.min_glb; [|discriminate].
  apply Qmult_le_0_compat; [|discriminate]. unfold Qdiv.
  apply Qmult_le_0_compat.
  - change 0%Q with (inject_Z 0). rewrite <- Zle_Qle. lia.
  - apply Qinv_le_0_compat. change 0%Q with (inject_Z 0). rewrite <- Zle_Qle. lia.
Qed.

Lemma sorted_map_seq (f : nat -> Q) (s len : nat) :
  (forall a b, a <= b -> (f a <= f b)%Q) ->
  StronglySorted Qle (map f (seq s len)).
Proof.
  intros Hf. revert s. induction len as [|len IH]; intros s; cbn [seq map].
  - constructor.
  - constructor; [apply IH|]. apply Forall_forall. intros x Hx.
    apply in_map_iff in Hx as (m & <- & Hm). apply in_seq in Hm. apply Hf. lia.
Qed.

Lemma sorted_between (lo hi : Q) (l : list Q) :
  StronglySorted Qle l ->
  Forall (fun x => (lo <= x)%Q /\ (x <= hi)%Q) l ->
  (lo <= hi)%Q ->
  StronglySorted Qle (lo :: l ++ [hi]).
Proof.
  intros S B H. constructor.
  - induction S as [|x l S IH F]; cbn [app].
    + constructor; constructor.
    + inversion B; subst. constructor; [apply IH; assumption|].
      apply Forall_app. split; [exact F|]. constructor; [tauto|constructor].
  - apply Forall_app. split.
    + eapply Forall_impl; [|exact B]. cbn. tauto.
    + constructor; [exact H|constructor].
Qed.

Lemma parse_failure_run (label msg : string) (w : World) :
  snd ((console_error label ;;; setError msg) w) =
  {| ui := {| loading := loading (ui w); data := data (ui w); error := msg;
              originalFileName := originalFileName (ui w);
              progress := progress (ui w) |};
     requests := requests w;
     log := log w ++ [EvConsoleError label; EvSetError msg] |}.
Proof.
  destruct w as [[l d e o p] r lg].
  cbv [console_error setError bind emit set_ui
       snd ui requests log loading data error originalFileName progress].
  repeat rewrite <- app_assoc. reflexivity.
Qed.

Section Progress.

Variable net : nat -> string -> PostOutcome.

Lemma loop_progress_sorted (n r b : nat) (rest : list string) :
  StronglySorted Qle
    (0%Q :: map fst (loop_checkpoints net n r 0 [] rest b) ++ [100%Q]).
Proof.
  unfold loop_checkpoints. rewrite map_map. cbn [fst].
  apply sorted_between; [| |discriminate].
  - apply sorted_map_seq. intros a c H. apply batch_progress_mono.
    apply Nat.add_le_mono_l, Nat.mul_le_mono_l. exact H.
  - apply Forall_forall. intros x Hx. apply in_map_iff in Hx as (m & <- & _).
    apply batch_progress_bounds.
Qed.

(** C5.  On every upload of a file the handler returns; the values it
    passes to [setProgress], in order, never decrease, the last one is
    100, and [progress] is 100 at the end: so after all batches, after a
    quota error, and when the file does not parse. *)
Theorem progress_nondecreasing_ends_at_100 (file : File) (w : World) :
  exists w' evs,
    handleFileUpload net (Some file) w = Some w'
    /\ log w' = log w ++ evs
    /\ StronglySorted Qle (progress_values evs)
    /\ (exists earlier, progress_values evs = earlier ++ [100%Q])
    /\ progress (ui w') = 100%Q.
Proof.
  destruct (file_rows file) as [jsonData|] eqn:Hrows.
  - destruct (handleFileUpload_run net file jsonData w Hrows)
      as (w' & evs & H & L & P & _ & PV & _).
    exists w', evs. rewrite PV. cbn [app].
    repeat split; auto using loop_progress_sorted.
    eexists (0%Q :: _). reflexivity.
  - unfold handleFileUpload. rewrite Hrows.
    rewrite upload_epilogue, parse_failure_run, upload_prologue.
    cbn [ui requests log loading data error originalFileName progress].
    eexists.
    exists [EvSetLoading true; EvSetError ""; EvSetProgress 0%Q; EvSetData [];
            EvSetOriginalFileName (file_name file);
            EvConsoleError "Error processing file:"; EvSetError PARSE_ERROR_MESSAGE;
            EvSetLoading false; EvSetProgress 100%Q].
    split; [reflexivity|]. cbn [log ui progress].
    split; [repeat rewrite <- app_assoc; reflexivity|].
    split; [|split; [exists [0%Q]; reflexivity|reflexivity]].
    cbn. repeat constructor. discriminate.
Qed.

End Progress.

(* ------------------------------------------------------------------ *)
(** * The scenarios of the specification *)

(** Ten strings, the third request answered with HTTP 429. *)
Lemma quota_error_stops_run_witness :
  exists w' evs,
    handleFileUpload (Scenario.net_failing 2 429)
      (Some (Scenario.file_of Scenario.texts10)) initial_world = Some w'
    /\ log w' = log initial_world ++ evs
    /\ posts evs = firstn 3 (textsToTranslate_of (Scenario.rows_of Scenario.texts10))
    /\ requests w' = requests initial_world + 3
    /\ error (ui w') = message_of (ThrownError QUOTA_MESSAGE)
    /\ includes "quota" (error (ui w')) = true
    /\ data (ui w') =
         pairs_from (Scenario.net_failing 2 429) (requests initial_world)
           (firstn (BATCH_SIZE * (2 / BATCH_SIZE))
              (textsToTranslate_of (Scenario.rows_of Scenario.texts10))).
Proof.
  apply (quota_error_stops_run (Scenario.net_failing 2 429)
           (Scenario.file_of Scenario.texts10) (Scenario.rows_of Scenario.texts10)
           initial_world 2 (ThrownError QUOTA_MESSAGE)).
  - reflexivity.
  - apply first_quota_at_first_quota. reflexivity.
Defined.

(** C1, as stated, fails: in that run the pair sequence returned does not
    have length 2 (it is empty). *)
Lemma quota_at_item_3_keeps_no_pair :
  ~ (exists w',
       handleFileUpload (Scenario.net_failing 2 429)
         (Some (Scenario.file_of Scenario.texts10)) initial_world = Some w'
       /\ length (data (ui w')) = 2).
Proof.
  intros (w' & H & L). vm_compute in H. inversion H; subst. discriminate.
Qed.

(** What that run leaves: three requests, no pair, the quota message. *)
Lemma quota_at_item_3_run :
  option_map (fun w' => (requests w', data (ui w'), error (ui w')))
    (handleFileUpload (Scenario.net_failing 2 429)
       (Some (Scenario.file_of Scenario.texts10)) initial_world)
  = Some (3, [], QUOTA_MESSAGE).
Proof. vm_compute. reflexivity. Qed.

(** Twenty-five strings, the fourteenth request answered with HTTP 429. *)
Lemma quota_abort_keeps_whole_batches_witness :
  exists w',
    handleFileUpload (Scenario.net_failing 13 429)
      (Some (Scenario.file_of Scenario.texts25)) initial_world = Some w'
    /\ requests w' = requests initial_world + 14
    /\ length (data (ui w')) = BATCH_SIZE * (13 / BATCH_SIZE)
    /\ length (data (ui w')) mod BATCH_SIZE = 0
    /\ length (data (ui w')) <= 13
    /\ (forall k, BATCH_SIZE * (13 / BATCH_SIZE) <= k ->
                  nth_error (data (ui w')) k = None).
Proof.
  apply (quota_abort_keeps_whole_batches (Scenario.net_failing 13 429)
           (Scenario.file_of Scenario.texts25) (Scenario.rows_of Scenario.texts25)
           initial_world 13 (ThrownError QUOTA_MESSAGE)).
  - reflexivity.
  - apply first_quota_at_first_quota. reflexivity.
Defined.

(** Ten strings, the seventh request answered with HTTP 401. *)
Lemma one_pair_per_input_witness :
  exists w' evs,
    handleFileUpload (Scenario.net_failing 6 401)
      (Some (Scenario.file_of Scenario.texts10)) initial_world = Some w'
    /\ log w' = log initial_world ++ evs
    /\ posts evs = textsToTranslate_of (Scenario.rows_of Scenario.texts10)
    /\ length (data (ui w')) =
         length (textsToTranslate_of (Scenario.rows_of Scenario.texts10))
    /\ map original (data (ui w')) =
         textsToTranslate_of (Scenario.rows_of Scenario.texts10)
    /\ (forall k text,
          nth_error (textsToTranslate_of (Scenario.rows_of Scenario.texts10)) k
            = Some text ->
          exists p,
            nth_error (data (ui w')) k = Some p
            /\ original p = text
            /\ match attempt (Scenario.net_failing 6 401)
                       (requests initial_world + k) text with
               | Normal s => translated p = s
               | Abrupt _ => translated p = CONFIG.DEBUG_TRANSLATED_PERSIAN
               end).
Proof.
  apply (one_pair_per_input (Scenario.net_failing 6 401)
           (Scenario.file_of Scenario.texts10) (Scenario.rows_of Scenario.texts10)
           initial_world).
  - reflexivity.
  - apply quota_free_first_quota. reflexivity.
Defined.

(** In that run the seventh pair carries the placeholder and the run goes on
    to the tenth item. *)
Lemma invalid_key_at_item_7_run :
  option_map (fun w' => (requests w', length (data (ui w')), nth_error (data (ui w')) 6,
                         nth_error (data (ui w')) 9, error (ui w')))
    (handleFileUpload (Scenario.net_failing 6 401)
       (Some (Scenario.file_of Scenario.texts10)) initial_world)
  = Some (10, 10,
          Some {| original := "t7"; translated := CONFIG.DEBUG_TRANSLATED_PERSIAN |},
          Some {| original := "t10"; translated := "fa:t10" |}, "").
Proof. vm_compute. reflexivity. Qed.

(** A sheet whose first column is empty. *)
Lemma empty_input_no_request_witness :
  exists w' evs,
    handleFileUpload Scenario.net_ok (Some Scenario.blank_file) initial_world = Some w'
    /\ log w' = log initial_world ++ evs
    /\ data (ui w') = []
    /\ posts evs = []
    /\ requests w' = requests initial_world.
Proof.
  apply (empty_input_no_request Scenario.net_ok Scenario.blank_file
           Scenario.blank_rows initial_world); reflexivity.
Defined.

(** The progress values of the 25-row run on binary64 floats: 40, 80 and
    100, as on the rationals. *)
Lemma progress_25_rows_binary64 :
  PrimFloat.eqb (batch_progress_binary64 0 25) (float_of_nat 40) = true
  /\ PrimFloat.eqb (batch_progress_binary64 10 25) (float_of_nat 80) = true
  /\ PrimFloat.eqb (batch_progress_binary64 20 25) (float_of_nat 100) = true.
Proof. repeat split; vm_compute; reflexivity. Qed.

(* ------------------------------------------------------------------ *)
(** * Further properties of the translation client *)

(** X1.  Whatever the endpoint answers, one call of [translateText] sends
    exactly one request, carrying the text, never sleeps, and leaves the
    React state as it was: there is no retry at this layer. *)
Theorem translateText_single_attempt
    (net : nat -> string -> PostOutcome) (text : string) (w : World) :
  exists evs,
    snd (translateText net text w) =
      {| ui := ui w; requests := S (requests w); log := log w ++ evs |}
    /\ posts evs = [text]
    /\ timing evs = [EvPost text].
Proof.
  destruct (translateText_run net text w) as (evs & E & _ & P).
  destruct (translateText_timing net text w) as (evs' & E' & T).
  rewrite E in E'. inversion E' as [L]. apply app_inv_head in L.
  inversion L; subst evs'.
  exists (EvPost text :: evs). rewrite E. cbn [snd].
  split; [reflexivity|]. split.
  - rewrite posts_cons, P. reflexivity.
  - cbn [timing filter]. fold (timing evs). rewrite T. reflexivity.
Qed.

(** X2.  When the request is fulfilled, [translateText] returns the candidate
    text if there is a non-empty one; otherwise it throws the "unexpected
    error" message: the "Invalid response format" error raised inside the
    [try] block is caught by the function's own [catch] and replaced.  That
    error is no quota error. *)
Theorem fulfilled_response_outcome
    (net : nat -> string -> PostOutcome) (text : string) (w : World)
    (c : option string) :
  net (requests w) text = Fulfilled c ->
  fst (translateText net text w) =
    match c with
    | Some (String a s) => Normal (String a s)
    | _ => Abrupt (ThrownError UNEXPECTED_MESSAGE)
    end
  /\ UNEXPECTED_MESSAGE <> INVALID_FORMAT_MESSAGE
  /\ is_quota (ThrownError UNEXPECTED_MESSAGE) = false.
Proof.
  intros H. split; [|split; [discriminate|reflexivity]].
  unfold translateText, try_catch, bind, axios_post. rewrite H.
  destruct c as [[|a s]|]; reflexivity.
Qed.

Lemma fulfilled_response_outcome_witness :
  fst (translateText Scenario2.net_malformed "hello" initial_world) =
    Abrupt (ThrownError UNEXPECTED_MESSAGE)
  /\ UNEXPECTED_MESSAGE <> INVALID_FORMAT_MESSAGE
  /\ is_quota (ThrownError UNEXPECTED_MESSAGE) = false.
Proof.
  apply (fulfilled_response_outcome Scenario2.net_malformed "hello" initial_world None).
  reflexivity.
Defined.

(** X3.  When the request is rejected with an axios error, the error
    [translateText] throws is a quota error for its caller (its message
    contains "quota") exactly in three cases: the status is 429; the server's
    error message contains "quota"; or the status is not 401, the server gave
    no non-empty error message, and the transport's own message contains
    "quota". *)
Theorem quota_error_iff
    (net : nat -> string -> PostOutcome) (text : string) (w : World)
    (e : AxiosError) (t : Thrown) :
  net (requests w) text = Rejected (ThrownAxios e) ->
  fst (translateText net text w) = Abrupt t ->
  (is_quota t = true <->
   has_status e 429 \/ server_mentions_quota e \/
   (~ has_status e 401 /\ (forall sm, server_message e sm -> sm = "")
    /\ includes "quota" (axios_message e) = true)).
Proof.
  intros H T. rewrite (translateText_rejected net text w _ H) in T.
  inversion T as [T']; clear T T'. unfold classify.
  pose proof (status_is_true e 429) as S429.
  pose proof (status_is_true e 401) as S401.
  pose proof (response_quota_true e) as SQ.
  destruct (status_is e 429) eqn:A.
  { cbn [orb]. split; [intros _; left; apply S429; reflexivity|reflexivity]. }
  destruct (response_message_includes_quota e) eqn:B.
  { cbn [orb]. split; [intros _; right; left; apply SQ; reflexivity|reflexivity]. }
  cbn [orb].
  assert (N1 : ~ has_status e 429) by (intros X; apply S429 in X; discriminate).
  assert (N2 : ~ server_mentions_quota e) by (intros X; apply SQ in X; discriminate).
  destruct (status_is e 401) eqn:C.
  { split; [discriminate|]. intros [X|[X|(X & _)]]; try contradiction.
    exfalso. apply X, S401. reflexivity. }
  assert (N3 : ~ has_status e 401) by (intros X; apply S401 in X; discriminate).
  unfold is_quota. cbn [message_of].
  unfold response_message_includes_quota in B.
  unfold or_else, server_message.
  destruct (response_message e) as [m|] eqn:R.
  - assert (SM : server_message e m).
    { unfold response_message in R. destruct (response e) as [r|] eqn:Er; [|discriminate].
      exists r. auto. }
    destruct m as [|a m]; cbn [truthy].
    + split.
      * intros I. right. right. split; [exact N3|]. split; [|exact I].
        intros sm (r & Er & Em). destruct SM as (r' & Er' & Em').
        rewrite Er in Er'. inversion Er'; subst. rewrite Em in Em'.
        inversion Em'. reflexivity.
      * intros [X|[X|(_ & _ & I)]]; try contradiction. exact I.
    + split; [rewrite B; discriminate|].
      intros [X|[X|(_ & E0 & _)]]; try contradiction.
      specialize (E0 _ SM). discriminate.
  - split.
    + intros I. right. right. split; [exact N3|]. split; [|exact I].
      intros sm (r & Er & Em). unfold response_message in R. rewrite Er in R.
      rewrite Em in R. discriminate.
    + intros [X|[X|(_ & _ & I)]]; try contradiction. exact I.
Qed.

Lemma quota_error_iff_witness :
  is_quota (ThrownError "proxy: quota exhausted") = true <->
  has_status Scenario2.transport_quota 429 \/
  server_mentions_quota Scenario2.transport_quota \/
  (~ has_status Scenario2.transport_quota 401
   /\ (forall sm, server_message Scenario2.transport_quota sm -> sm = "")
   /\ includes "quota" (axios_message Scenario2.transport_quota) = true).
Proof.
  apply (quota_error_iff (fun _ _ => Rejected (ThrownAxios Scenario2.transport_quota))
           "hello" initial_world Scenario2.transport_quota
           (ThrownError "proxy: quota exhausted")); reflexivity.
Defined.

(* ------------------------------------------------------------------ *)
(** * Further properties of the batch loop *)

(** X4.  [translateBatch] either returns exactly one value per text, or
    throws an error that is a quota error; it throws nothing else.  It never
    touches the React state, and it sends at most one request per text. *)
Theorem translateBatch_all_or_quota
    (net : nat -> string -> PostOutcome) (texts : list string) (w : World) :
  ui (snd (translateBatch net texts w)) = ui w
  /\ requests w <= requests (snd (translateBatch net texts w))
       <= requests w + length texts
  /\ match fst (translateBatch net texts w) with
     | Normal results => length results = length texts
     | Abrupt t => is_quota t = true
     end.
Proof.
  unfold translateBatch.
  destruct (translateBatch_from_run net texts [] w) as (evs & _ & H).
  destruct (first_quota net (requests w) texts) as [[q t]|] eqn:F;
    destruct H as [H _]; rewrite H; cbn [fst snd ui requests].
  - destruct (first_quota_sound net _ _ _ _ F) as (Q & L & _).
    repeat split; auto; lia.
  - repeat split; try lia.
    cbn [app]. rewrite length_map. apply pairs_from_length.
Qed.

Lemma batch_timing_all_succeed (net : nat -> string -> PostOutcome)
    (texts : list string) (r : nat) :
  (forall k text, nth_error texts k = Some text ->
                  exists s, attempt net (r + k) text = Normal s) ->
  batch_timing net r texts =
  flat_map (fun text => [EvPost text; EvDelay RATE_LIMIT_DELAY]) texts
  /\ first_quota net r texts = None.
Proof.
  revert r. induction texts as [|text rest IH]; intros r H; [repeat split|].
  destruct (H 0 text eq_refl) as (s & A). rewrite Nat.add_0_r in A.
  destruct (IH (S r)) as (T & F).
  { intros k x N. destruct (H (S k) x N) as (s' & A').
    exists s'. rewrite <- A'. f_equal. lia. }
  cbn [batch_timing first_quota flat_map app].
  rewrite A, T, F. repeat split.
Qed.

(** X5.  When every call of a batch succeeds, [translateBatch] returns the
    translations in the order of the texts, and each request is followed by
    exactly one sleep of [RATE_LIMIT_DELAY] before the next request. *)
Theorem all_success_batch_alternates
    (net : nat -> string -> PostOutcome) (texts : list string) (w : World) :
  (forall k text, nth_error texts k = Some text ->
                  exists s, attempt net (requests w + k) text = Normal s) ->
  timing (log (snd (translateBatch net texts w))) =
    timing (log w)
    ++ flat_map (fun text => [EvPost text; EvDelay RATE_LIMIT_DELAY]) texts
  /\ exists results,
       fst (translateBatch net texts w) = Normal results
       /\ length results = length texts
       /\ forall k text,
            nth_error texts k = Some text ->
            exists s, attempt net (requests w + k) text = Normal s
                      /\ nth_error results k = Some s.
Proof.
  intros H. unfold translateBatch.
  destruct (batch_timing_all_succeed net texts (requests w) H) as (T & F).
  rewrite translateBatch_timing, T. split; [reflexivity|].
  destruct (translateBatch_from_run net texts [] w) as (evs & _ & R).
  rewrite F in R. destruct R as [R _]. rewrite R. cbn [fst app].
  eexists. split; [reflexivity|]. split.
  - rewrite length_map. apply pairs_from_length.
  - intros k text N. destruct (H k text N) as (s & A). exists s.
    split; [exact A|]. rewrite nth_error_map.
    rewrite (pairs_from_nth_error net texts (requests w) k text N).
    cbn [option_map translated]. unfold translation_of. rewrite A. reflexivity.
Qed.

Lemma all_success_batch_alternates_witness :
  timing (log (snd (translateBatch Scenario.net_ok ["a"; "b"; "c"] initial_world))) =
    timing (log initial_world)
    ++ flat_map (fun text => [EvPost text; EvDelay RATE_LIMIT_DELAY]) ["a"; "b"; "c"]
  /\ exists results,
       fst (translateBatch Scenario.net_ok ["a"; "b"; "c"] initial_world) = Normal results
       /\ length results = length ["a"; "b"; "c"]
       /\ forall k text,
            nth_error ["a"; "b"; "c"] k = Some text ->
            exists s, attempt Scenario.net_ok (requests initial_world + k) text = Normal s
                      /\ nth_error results k = Some s.
Proof.
  apply (all_success_batch_alternates Scenario.net_ok ["a"; "b"; "c"] initial_world).
  intros k text _. eexists. reflexivity.
Defined.

(* ------------------------------------------------------------------ *)
(** * Further properties of the upload handler *)

Lemma extracted_in (jsonData : list Row) (text : string) :
  In text (textsToTranslate_of jsonData) <->
  text <> "" /\ exists row, In row jsonData /\ nth_error row 0 = Some text.
Proof.
  unfold textsToTranslate_of. rewrite in_map_iff. split.
  - intros (row & E & I). apply filter_In in I as (I & T).
    unfold row0 in T. destruct row as [|c cs]; [discriminate|].
    cbn in E, T. subst c. split; [destruct text; [discriminate|congruence]|].
    exists (text :: cs). auto.
  - intros (N & row & I & E). exists row.
    destruct row as [|c cs]; [discriminate|]. cbn in E. inversion E; subst c.
    split; [reflexivity|]. apply filter_In. split; [exact I|].
    unfold row0. cbn. destruct text; [congruence|reflexivity].
Qed.

Lemma extracted_nonempty (jsonData : list Row) :
  Forall (fun text => text <> "") (textsToTranslate_of jsonData).
Proof. apply Forall_forall. intros text I. apply extracted_in in I. tauto. Qed.

Section UploadFrame.

Variable net : nat -> string -> PostOutcome.
Variable texts : list string.

(** The loop never touches [loading] and [originalFileName]. *)
Lemma upload_loop_frame (fuel i : nat) (td td' : list TranslatedData) (w w' : World) :
  upload_loop net fuel texts i td w = Some (td', w') ->
  loading (ui w') = loading (ui w)
  /\ originalFileName (ui w') = originalFileName (ui w).
Proof.
  revert i td w. induction fuel as [|f IH]; intros i td w; cbn [upload_loop].
  - destruct (i <? length texts); [discriminate|].
    intros H; inversion H; subst. auto.
  - destruct (i <? length texts).
    2:{ intros H; inversion H; subst. auto. }
    destruct (batch_step_run net texts i td w) as [evsb (Cb & Hb)].
    destruct (first_quota net (requests w) (firstn BATCH_SIZE (skipn i texts)))
      as [[q t]|] eqn:Fb; destruct Hb as [Hb _]; rewrite Hb.
    + destruct (first_quota_sound net _ _ _ _ Fb) as (Q & _). rewrite Q.
      intros H; inversion H; subst; clear H.
      unfold setError, bind, emit, set_ui. cbn. auto.
    + intros H. apply IH in H. cbn [ui loading originalFileName] in H. exact H.
Qed.

End UploadFrame.

(** What every upload of a file leaves, whatever happened. *)
Lemma handleFileUpload_end (net : nat -> string -> PostOutcome)
    (file : File) (w w' : World) :
  handleFileUpload net (Some file) w = Some w' ->
  loading (ui w') = false
  /\ originalFileName (ui w') = file_name file
  /\ progress (ui w') = 100%Q.
Proof.
  unfold handleFileUpload.
  destruct (file_rows file) as [jsonData|].
  - destruct (upload_loop _ _ _ _ _ _) as [[td w3]|] eqn:L; [|discriminate].
    apply upload_loop_frame in L. rewrite upload_prologue in L.
    cbn [ui loading originalFileName] in L. destruct L as (_ & O).
    destruct (0 <? length td); intros H; inversion H; subst; clear H;
      rewrite ?upload_epilogue, ?setData_run;
      cbn [ui loading originalFileName progress]; auto.
  - rewrite upload_epilogue, parse_failure_run, upload_prologue.
    intros H; inversion H; subst; clear H.
    cbn [ui loading originalFileName progress]. auto.
Qed.

(** X7.  Whatever file is uploaded and whatever the endpoint answers, the
    handler returns, and the requests it has sent carry, in order and once
    each, the first extracted texts (all of them, or those up to the one
    that failed with a quota error); no request carries an empty text, and
    nothing is sent when the file does not parse. *)
Theorem upload_sends_prefix_of_texts
    (net : nat -> string -> PostOutcome) (file : File) (w : World) :
  exists w' evs,
    handleFileUpload net (Some file) w = Some w'
    /\ log w' = log w ++ evs
    /\ requests w' = requests w + length (posts evs)
    /\ Forall (fun text => text <> "") (posts evs)
    /\ match file_rows file with
       | Some jsonData =>
           posts evs = firstn (length (posts evs)) (textsToTranslate_of jsonData)
       | None => posts evs = []
       end.
Proof.
  destruct (file_rows file) as [jsonData|] eqn:Hrows.
  - destruct (handleFileUpload_run net file jsonData w Hrows)
      as (w' & evs & H & L & _ & _ & _ & R).
    exists w', evs. split; [exact H|]. split; [exact L|].
    pose proof (extracted_nonempty jsonData) as NE.
    destruct (first_quota net (requests w) (textsToTranslate_of jsonData))
      as [[q t]|] eqn:F; destruct R as (R & P & _).
    + destruct (first_quota_sound net _ _ _ _ F) as (_ & Lq & _).
      rewrite P, length_firstn, Nat.min_l by lia.
      split; [exact R|]. split; [|reflexivity].
      rewrite <- (firstn_skipn (S q) (textsToTranslate_of jsonData)) in NE.
      apply Forall_app in NE. tauto.
    + rewrite P. split; [exact R|]. split; [exact NE|].
      symmetry. apply firstn_all.
  - unfold handleFileUpload. rewrite Hrows.
    rewrite upload_epilogue, parse_failure_run, upload_prologue.
    cbn [ui requests log].
    eexists.
    exists [EvSetLoading true; EvSetError ""; EvSetProgress 0%Q; EvSetData [];
            EvSetOriginalFileName (file_name file);
            EvConsoleError "Error processing file:"; EvSetError PARSE_ERROR_MESSAGE;
            EvSetLoading false; EvSetProgress 100%Q].
    split; [reflexivity|]. cbn [log requests].
    split; [repeat rewrite <- app_assoc; reflexivity|].
    cbn. repeat split; [lia|constructor].
Qed.

Lemma handleFileUpload_rejected_file
    (net : nat -> string -> PostOutcome) (file : File) (w : World) :
  file_rows file = None ->
  handleFileUpload net (Some file) w =
    Some {| ui := {| loading := false; data := [];
                     error := PARSE_ERROR_MESSAGE;
                     originalFileName := file_name file; progress := 100 |};
            requests := requests w;
            log := log w ++
                   [EvSetLoading true; EvSetError ""; EvSetProgress 0%Q; EvSetData [];
                    EvSetOriginalFileName (file_name file);
                    EvConsoleError "Error processing file:";
                    EvSetError PARSE_ERROR_MESSAGE;
                    EvSetLoading false; EvSetProgress 100%Q] |}.
Proof.
  intros Hrows. unfold handleFileUpload. rewrite Hrows.
  rewrite upload_epilogue, parse_failure_run, upload_prologue.
  cbn [ui requests log loading data error originalFileName progress].
  repeat rewrite <- app_assoc. reflexivity.
Qed.

(** X8.  When the spreadsheet library rejects the file, the handler sends no
    request and ends with no data (whatever was there before), the parse
    error message, progress 100, [loading] off and the name of the rejected
    file as [originalFileName]. *)
Theorem parse_failure_run_end
    (net : nat -> string -> PostOutcome) (file : File) (w : World) :
  file_rows file = None ->
  exists w' evs,
    handleFileUpload net (Some file) w = Some w'
    /\ log w' = log w ++ evs
    /\ posts evs = []
    /\ requests w' = requests w
    /\ ui w' = {| loading := false; data := [];
                  error := PARSE_ERROR_MESSAGE;
                  originalFileName := file_name file; progress := 100 |}.
Proof.
  intros Hrows. rewrite (handleFileUpload_rejected_file net file w Hrows).
  eexists. eexists. split; [reflexivity|]. cbn [log requests ui].
  split; [reflexivity|]. repeat split.
Qed.

Lemma parse_failure_run_end_witness :
  exists w' evs,
    handleFileUpload Scenario.net_ok (Some Scenario2.broken_file) Scenario.two_pairs
      = Some w'
    /\ log w' = log Scenario.two_pairs ++ evs
    /\ posts evs = []
    /\ requests w' = requests Scenario.two_pairs
    /\ ui w' = {| loading := false; data := [];
                  error := PARSE_ERROR_MESSAGE;
                  originalFileName := file_name Scenario2.broken_file;
                  progress := 100 |}.
Proof.
  apply (parse_failure_run_end Scenario.net_ok Scenario2.broken_file Scenario.two_pairs).
  reflexivity.
Defined.

Lemma ui_eq (a b : ComponentState) :
  loading a = loading b -> data a = data b -> error a = error b ->
  originalFileName a = originalFileName b -> progress a = progress b -> a = b.
Proof. destruct a, b; cbn; intros; subst; reflexivity. Qed.

(** X9.  An upload starts from scratch: whatever data, error, file name and
    progress the state held before, the state it leaves is the same, for the
    same file and the same answers of the endpoint.  Nothing of a previous
    run is kept or appended to. *)
Theorem upload_discards_previous_state
    (net : nat -> string -> PostOutcome) (file : File) (w1 w2 : World) :
  requests w1 = requests w2 ->
  exists w1' w2',
    handleFileUpload net (Some file) w1 = Some w1'
    /\ handleFileUpload net (Some file) w2 = Some w2'
    /\ ui w1' = ui w2'
    /\ requests w1' = requests w2'.
Proof.
  intros R.
  destruct (file_rows file) as [jsonData|] eqn:Hrows.
  - destruct (handleFileUpload_run net file jsonData w1 Hrows)
      as (w1' & evs1 & H1 & _ & _ & _ & _ & R1).
    destruct (handleFileUpload_run net file jsonData w2 Hrows)
      as (w2' & evs2 & H2 & _ & _ & _ & _ & R2).
    destruct (handleFileUpload_end net file w1 w1' H1) as (L1 & O1 & P1).
    destruct (handleFileUpload_end net file w2 w2' H2) as (L2 & O2 & P2).
    exists w1', w2'. split; [exact H1|]. split; [exact H2|].
    rewrite <- R in R2.
    destruct (first_quota net (requests w1) (textsToTranslate_of jsonData)) as [[q t]|];
      destruct R1 as (Q1 & _ & D1 & E1); destruct R2 as (Q2 & _ & D2 & E2);
      (split; [apply ui_eq; congruence|congruence]).
  - rewrite !(handleFileUpload_rejected_file net file _ Hrows).
    eexists. eexists. split; [reflexivity|]. split; [reflexivity|].
    cbn [ui requests]. auto.
Qed.

Lemma upload_discards_previous_state_witness :
  exists w1' w2',
    handleFileUpload Scenario.net_ok (Some (Scenario.file_of Scenario.texts10))
      Scenario.two_pairs = Some w1'
    /\ handleFileUpload Scenario.net_ok (Some (Scenario.file_of Scenario.texts10))
         {| ui := initial_state; requests := 2; log := [] |} = Some w2'
    /\ ui w1' = ui w2'
    /\ requests w1' = requests w2'.
Proof.
  apply (upload_discards_previous_state Scenario.net_ok
           (Scenario.file_of Scenario.texts10) Scenario.two_pairs
           {| ui := initial_state; requests := 2; log := [] |}).
  reflexivity.
Defined.

(* ------------------------------------------------------------------ *)
(** * Further properties of the progress values *)

Lemma Math_round_bounds (p : Q) :
  (0 <= p)%Q -> (p <= 100)%Q -> (0 <= Math_round p <= 100)%Z.
Proof.
  intros L U. unfold Math_round. split.
  - change 0%Z with (Qfloor (0 + (1 # 2))). apply Qfloor_resp_le.
    apply Qplus_le_l. exact L.
  - change 100%Z with (Qfloor (100 + (1 # 2))). apply Qfloor_resp_le.
    apply Qplus_le_l. exact U.
Qed.

(** X10.  Every value the handler passes to [setProgress] during an upload
    lies between 0 and 100, so the percentage shown beside the bar,
    [Math.round(progress)], is an integer between 0 and 100. *)
Theorem progress_within_bounds
    (net : nat -> string -> PostOutcome) (file : File) (w : World) :
  exists w' evs,
    handleFileUpload net (Some file) w = Some w'
    /\ log w' = log w ++ evs
    /\ Forall (fun p => (0 <= p)%Q /\ (p <= 100)%Q
                        /\ (0 <= Math_round p <= 100)%Z)
              (progress_values evs).
Proof.
  assert (B : forall p, (0 <= p)%Q /\ (p <= 100)%Q ->
                        (0 <= p)%Q /\ (p <= 100)%Q /\ (0 <= Math_round p <= 100)%Z).
  { intros p (L & U). auto using Math_round_bounds. }
  destruct (file_rows file) as [jsonData|] eqn:Hrows.
  - destruct (handleFileUpload_run net file jsonData w Hrows)
      as (w' & evs & H & L & _ & _ & PV & _).
    exists w', evs. split; [exact H|]. split; [exact L|].
    rewrite PV. cbn [app]. constructor; [apply B; split; discriminate|].
    apply Forall_app. split.
    + unfold loop_checkpoints. rewrite map_map. cbn [fst].
      apply Forall_forall. intros p I. apply in_map_iff in I as (m & <- & _).
      apply B. apply batch_progress_bounds.
    + constructor; [apply B; split; discriminate|constructor].
  - rewrite (handleFileUpload_rejected_file net file w Hrows).
    eexists. eexists. split; [reflexivity|]. cbn [log].
    split; [reflexivity|]. cbn.
    repeat (constructor; [apply B; split; discriminate|]). constructor.
Qed.

(* ------------------------------------------------------------------ *)
(** * Further properties of the export handler *)

Section ExportFacts.

Variable writeFile_outcome : Workbook -> string -> option Thrown.

(** The [try] block of [handleExport]: the one workbook and the one name it
    hands to [writeFile], and what follows from the outcome. *)
Lemma export_body_run (w : World) :
  export_body writeFile_outcome w =
  match writeFile_outcome
          [("Translations", export_sheet "Persian Translation" (data (ui w)))]
          (export_name (originalFileName (ui w))) with
  | None =>
      (Normal tt,
       {| ui := ui w; requests := requests w;
          log := log w ++
                 [EvWriteFile
                    [("Translations", export_sheet "Persian Translation" (data (ui w)))]
                    (export_name (originalFileName (ui w)))] |})
  | Some t => (Abrupt t, w)
  end.
Proof.
  unfold export_body, bind, get_ui, writeFile.
  set (ws := json_to_sheet _ true).
  assert (E : {| sheet_rows := sheet_rows ws; sheet_cols := [30%Z; 30%Z] |} =
              export_sheet "Persian Translation" (data (ui w))).
  { unfold ws. rewrite export_sheet_rows. reflexivity. }
  rewrite E.
  assert (N : (if truthy (originalFileName (ui w))
               then ("translated_" ++ originalFileName (ui w))%string
               else "translated_document.xlsx") =
              export_name (originalFileName (ui w))).
  { unfold export_name. destruct (originalFileName (ui w)); reflexivity. }
  rewrite N. unfold book_append_sheet, book_new. cbn [app].
  destruct (writeFile_outcome _ _); reflexivity.
Qed.

Lemma handleExport_run (w : World) :
  handleExport writeFile_outcome w =
  match writeFile_outcome
          [("Translations", export_sheet "Persian Translation" (data (ui w)))]
          (export_name (originalFileName (ui w))) with
  | None =>
      (Normal tt,
       {| ui := ui w; requests := requests w;
          log := log w ++
                 [EvWriteFile
                    [("Translations", export_sheet "Persian Translation" (data (ui w)))]
                    (export_name (originalFileName (ui w)))] |})
  | Some t =>
      (Normal tt,
       {| ui := {| loading := loading (ui w); data := data (ui w);
                   error := EXPORT_ERROR_MESSAGE;
                   originalFileName := originalFileName (ui w);
                   progress := progress (ui w) |};
          requests := requests w;
          log := log w ++ [EvConsoleError "Export error:";
                           EvSetError EXPORT_ERROR_MESSAGE] |})
  end.
Proof.
  unfold handleExport, try_catch. rewrite export_body_run.
  destruct (writeFile_outcome _ _); [|reflexivity].
  unfold console_error, setError, bind, emit, set_ui.
  cbn [ui requests log loading data error originalFileName progress].
  rewrite <- app_assoc. reflexivity.
Qed.

(** X12.  Whatever [writeFile] does, [handleExport] returns normally, sends
    no request, and leaves [data], [originalFileName], [progress] and
    [loading] as they were; the error message is either untouched (a
    successful export does not clear an earlier error) or the export error
    message. *)
Theorem export_never_throws_nor_alters_results (w : World) :
  exists w' evs,
    handleExport writeFile_outcome w = (Normal tt, w')
    /\ log w' = log w ++ evs
    /\ posts evs = []
    /\ requests w' = requests w
    /\ data (ui w') = data (ui w)
    /\ originalFileName (ui w') = originalFileName (ui w)
    /\ progress (ui w') = progress (ui w)
    /\ loading (ui w') = loading (ui w)
    /\ ((written_headers evs <> [] /\ error (ui w') = error (ui w))
        \/ (written_headers evs = [] /\ error (ui w') = EXPORT_ERROR_MESSAGE)).
Proof.
  rewrite handleExport_run.
  destruct (writeFile_outcome _ _); eexists; eexists;
    (split; [reflexivity|]); cbn [ui requests log loading data error
                                     originalFileName progress];
    (split; [reflexivity|]); repeat split.
  - right. split; reflexivity.
  - left. split; [discriminate|reflexivity].
Qed.

(** X13.  [handleExport] writes at most one file, and the name of a file it
    writes always starts with [translated_]: it is [translated_] followed by
    the name of the uploaded file, or [translated_document.xlsx]. *)
Theorem export_file_name (w : World) :
  exists evs,
    log (snd (handleExport writeFile_outcome w)) = log w ++ evs
    /\ length (written_headers evs) <= 1
    /\ forall wb filename,
         In (EvWriteFile wb filename) evs ->
         String.prefix "translated_" filename = true
         /\ (originalFileName (ui w) <> "" ->
             filename = ("translated_" ++ originalFileName (ui w))%string)
         /\ (originalFileName (ui w) = "" -> filename = "translated_document.xlsx").
Proof.
  rewrite handleExport_run.
  destruct (writeFile_outcome _ _); eexists; cbn [snd log];
    (split; [reflexivity|]); (split; [cbn; lia|]); intros wb filename I.
  - destruct I as [I|[I|[]]]; discriminate.
  - destruct I as [I|[]]. inversion I; subst; clear I.
    unfold export_name. destruct (originalFileName (ui w)) as [|a s].
    + repeat split; congruence.
    + repeat split; congruence.
Qed.

End ExportFacts.

(** X14.  Exporting twice in a row, when both writes succeed, writes the same
    workbook under the same name twice and leaves the state unchanged. *)
Theorem export_twice_same_file
    (writeFile_outcome : Workbook -> string -> option Thrown) (w : World) :
  (forall wb filename, writeFile_outcome wb filename = None) ->
  exists wb filename,
    (handleExport writeFile_outcome ;;; handleExport writeFile_outcome) w =
      (Normal tt,
       {| ui := ui w; requests := requests w;
          log := log w ++ [EvWriteFile wb filename; EvWriteFile wb filename] |})
    /\ length (sheet_rows (snd (hd ("", mkSheet [] []) wb))) = S (length (data (ui w))).
Proof.
  intros H. eexists. eexists. unfold bind.
  rewrite handleExport_run, H. rewrite handleExport_run, H.
  cbn [ui requests log]. rewrite <- app_assoc. split; [reflexivity|].
  cbn. rewrite length_map. reflexivity.
Qed.

Lemma export_twice_same_file_witness :
  exists wb filename,
    (handleExport Scenario.writeFile_ok ;;; handleExport Scenario.writeFile_ok)
      Scenario.two_pairs =
      (Normal tt,
       {| ui := ui Scenario.two_pairs; requests := requests Scenario.two_pairs;
          log := log Scenario.two_pairs
                 ++ [EvWriteFile wb filename; EvWriteFile wb filename] |})
    /\ length (sheet_rows (snd (hd ("", mkSheet [] []) wb)))
       = S (length (data (ui Scenario.two_pairs))).
Proof.
  apply (export_twice_same_file Scenario.writeFile_ok Scenario.two_pairs).
  reflexivity.
Defined.

(** X15.  Upload, then export.  After an upload without quota error, an
    export that succeeds writes one file, named after the uploaded file,
    whose sheet holds the header row and then one row per extracted text, in
    order, the text in the first cell and its translation (or the
    placeholder) in the second. *)
Theorem upload_then_export
    (net : nat -> string -> PostOutcome)
    (writeFile_outcome : Workbook -> string -> option Thrown)
    (file : File) (jsonData : list Row) (w : World) :
  file_rows file = Some jsonData ->
  quota_free net (requests w) (textsToTranslate_of jsonData) ->
  (forall wb filename, writeFile_outcome wb filename = None) ->
  exists w' w'' sheet,
    handleFileUpload net (Some file) w = Some w'
    /\ handleExport writeFile_outcome w' = (Normal tt, w'')
    /\ ui w'' = ui w'
    /\ log w'' =
         log w' ++ [EvWriteFile [("Translations", sheet)] (export_name (file_name file))]
    /\ sheet = export_sheet "Persian Translation"
                 (pairs_from net (requests w) (textsToTranslate_of jsonData))
    /\ length (sheet_rows sheet) = S (length (textsToTranslate_of jsonData))
    /\ map (fun row => nth 0 row None) (tl (sheet_rows sheet)) =
       map Some (textsToTranslate_of jsonData).
Proof.
  intros Hrows Hq Hw. apply quota_free_first_quota in Hq as F.
  destruct (handleFileUpload_run net file jsonData w Hrows)
    as (w' & evs & H & _ & _ & _ & _ & R).
  rewrite F in R. destruct R as (_ & _ & D & _).
  destruct (handleFileUpload_end net file w w' H) as (_ & O & _).
  exists w'. eexists. eexists. split; [exact H|].
  rewrite handleExport_run, Hw. split; [reflexivity|]. cbn [ui log].
  split; [reflexivity|]. rewrite D, O. split; [reflexivity|].
  split; [reflexivity|]. unfold export_sheet. cbn [sheet_rows tl length].
  rewrite length_map, pairs_from_length, map_map. cbn [nth].
  split; [reflexivity|].
  rewrite <- (pairs_from_original net (textsToTranslate_of jsonData) (requests w)) at 2.
  rewrite map_map. reflexivity.
Qed.

Lemma upload_then_export_witness :
  exists w' w'' sheet,
    handleFileUpload (Scenario.net_failing 6 401)
      (Some (Scenario.file_of Scenario.texts10)) initial_world = Some w'
    /\ handleExport Scenario.writeFile_ok w' = (Normal tt, w'')
    /\ ui w'' = ui w'
    /\ log w'' =
         log w' ++ [EvWriteFile [("Translations", sheet)]
                      (export_name (file_name (Scenario.file_of Scenario.texts10)))]
    /\ sheet = export_sheet "Persian Translation"
                 (pairs_from (Scenario.net_failing 6 401) (requests initial_world)
                    (textsToTranslate_of (Scenario.rows_of Scenario.texts10)))
    /\ length (sheet_rows sheet) =
       S (length (textsToTranslate_of (Scenario.rows_of Scenario.texts10)))
    /\ map (fun row => nth 0 row None) (tl (sheet_rows sheet)) =
       map Some (textsToTranslate_of (Scenario.rows_of Scenario.texts10)).
Proof.
  apply (upload_then_export (Scenario.net_failing 6 401) Scenario.writeFile_ok
           (Scenario.file_of Scenario.texts10) (Scenario.rows_of Scenario.texts10)
           initial_world).
  - reflexivity.
  - apply quota_free_first_quota. reflexivity.
  - reflexivity.
Defined.

(* ------------------------------------------------------------------ *)
(** * What the user sees after an upload *)

Lemma quota_message_truthy (s : string) : includes "quota" s = true -> truthy s = true.
Proof. destruct s; [discriminate|reflexivity]. Qed.

(** X16.  After any upload the upload button is enabled again and the
    progress box is gone; the download button (enabled) and the table, with
    one body row per pair, are rendered exactly when there is data; and the
    error snackbar stays closed exactly when the file parsed and no attempt
    ended in a quota error. *)
Theorem view_after_upload
    (net : nat -> string -> PostOutcome) (file : File) (w : World) :
  exists w',
    handleFileUpload net (Some file) w = Some w'
    /\ upload_disabled (render (ui w')) = false
    /\ progress_box (render (ui w')) = None
    /\ match data (ui w') with
       | [] => download_button (render (ui w')) = None
               /\ table (render (ui w')) = None
       | _ :: _ =>
           download_button (render (ui w')) = Some false
           /\ exists rows,
                table (render (ui w')) =
                  Some (["Original Text"; "Persian Translation"], rows)
                /\ map fst rows = map original (data (ui w'))
                /\ map snd rows = map translated (data (ui w'))
       end
    /\ (snackbar_open (render (ui w')) = false <->
        exists jsonData,
          file_rows file = Some jsonData
          /\ quota_free net (requests w) (textsToTranslate_of jsonData)).
Proof.
  assert (V : forall w',
            handleFileUpload net (Some file) w = Some w' ->
            upload_disabled (render (ui w')) = false
            /\ progress_box (render (ui w')) = None
            /\ match data (ui w') with
               | [] => download_button (render (ui w')) = None
                       /\ table (render (ui w')) = None
               | _ :: _ =>
                   download_button (render (ui w')) = Some false
                   /\ exists rows,
                        table (render (ui w')) =
                          Some (["Original Text"; "Persian Translation"], rows)
                        /\ map fst rows = map original (data (ui w'))
                        /\ map snd rows = map translated (data (ui w'))
               end).
  { intros w' H. destruct (handleFileUpload_end net file w w' H) as (L & _ & _).
    unfold render. cbn [upload_disabled progress_box download_button table].
    rewrite L. split; [reflexivity|]. split; [reflexivity|].
    destruct (data (ui w')) as [|p d]; [split; reflexivity|].
    cbn [length Nat.ltb Nat.leb]. split; [reflexivity|].
    eexists. split; [reflexivity|]. rewrite !map_map. split; reflexivity. }
  destruct (file_rows file) as [jsonData|] eqn:Hrows.
  - destruct (handleFileUpload_run net file jsonData w Hrows)
      as (w' & evs & H & _ & _ & _ & _ & R).
    exists w'. split; [exact H|]. destruct (V w' H) as (V1 & V2 & V3).
    split; [exact V1|]. split; [exact V2|]. split; [exact V3|].
    unfold render. cbn [snackbar_open].
    destruct (first_quota net (requests w) (textsToTranslate_of jsonData))
      as [[q t]|] eqn:F; destruct R as (_ & _ & _ & E); rewrite E.
    + destruct (first_quota_sound net _ _ _ _ F) as (Q & _).
      unfold is_quota in Q. rewrite (quota_message_truthy _ Q).
      split; [discriminate|]. intros (j & Ej & Qf). inversion Ej; subst j.
      apply quota_free_first_quota in Qf. congruence.
    + split; [|reflexivity]. intros _. exists jsonData.
      split; [reflexivity|]. apply quota_free_first_quota. exact F.
  - pose proof (handleFileUpload_rejected_file net file w Hrows) as H.
    eexists. split; [exact H|]. destruct (V _ H) as (V1 & V2 & V3).
    split; [exact V1|]. split; [exact V2|]. split; [exact V3|].
    cbn. split; [discriminate|]. intros (j & Ej & _). discriminate.
Qed.

(** X17.  When the first quota error falls in the first batch, the requests
    before it were sent and answered, yet nothing of them reaches the user:
    there is no data, hence neither table nor download button, and the
    snackbar is open with the message of the quota error. *)
Theorem quota_in_first_batch_shows_nothing
    (net : nat -> string -> PostOutcome) (file : File) (jsonData : list Row)
    (w : World) (q : nat) (t : Thrown) :
  file_rows file = Some jsonData ->
  first_quota_at net (requests w) (textsToTranslate_of jsonData) q t ->
  q < BATCH_SIZE ->
  exists w',
    handleFileUpload net (Some file) w = Some w'
    /\ requests w' = requests w + S q
    /\ data (ui w') = []
    /\ table (render (ui w')) = None
    /\ download_button (render (ui w')) = None
    /\ snackbar_open (render (ui w')) = true
    /\ snackbar_text (render (ui w')) = message_of t.
Proof.
  intros Hrows Hq Hlt. apply first_quota_at_first_quota in Hq as F.
  destruct (handleFileUpload_run net file jsonData w Hrows)
    as (w' & evs & H & _ & _ & _ & _ & R).
  rewrite F in R. destruct R as (R & _ & D & E).
  rewrite Nat.div_small, Nat.mul_0_r, firstn_O in D by exact Hlt.
  cbn [pairs_from] in D.
  exists w'. split; [exact H|]. split; [exact R|]. split; [exact D|].
  unfold render. cbn [table download_button snackbar_open snackbar_text].
  rewrite D, E. cbn [length Nat.ltb Nat.leb].
  destruct Hq as (_ & Q & _). unfold is_quota in Q.
  rewrite (quota_message_truthy _ Q). repeat split.
Qed.

Lemma quota_in_first_batch_shows_nothing_witness :
  exists w',
    handleFileUpload (Scenario.net_failing 8 429)
      (Some (Scenario.file_of Scenario.texts25)) initial_world = Some w'
    /\ requests w' = requests initial_world + 9
    /\ data (ui w') = []
    /\ table (render (ui w')) = None
    /\ download_button (render (ui w')) = None
    /\ snackbar_open (render (ui w')) = true
    /\ snackbar_text (render (ui w')) = message_of (ThrownError QUOTA_MESSAGE).
Proof.
  apply (quota_in_first_batch_shows_nothing (Scenario.net_failing 8 429)
           (Scenario.file_of Scenario.texts25) (Scenario.rows_of Scenario.texts25)
           initial_world 8 (ThrownError QUOTA_MESSAGE)).
  - reflexivity.
  - apply first_quota_at_first_quota. reflexivity.
  - unfold BATCH_SIZE. lia.
Defined.

(** The header row of a sheet is extracted like any other row, and rows
    without a first cell are skipped. *)
Lemma extracted_mixed_rows :
  textsToTranslate_of Scenario2.mixed_rows = ["Title"; "hello"; "world"].
Proof. reflexivity. Qed.

(** Closing the snackbar clears the error and nothing else. *)
Lemma snackbar_onClose_run (w : World) :
  snackbar_onClose w =
  (Normal tt,
   {| ui := {| loading := loading (ui w); data := data (ui w); error := "";
               originalFileName := originalFileName (ui w);
               progress := progress (ui w) |};
      requests := requests w; log := log w ++ [EvSetError ""] |}).
Proof. reflexivity. Qed.

(** X18.  The number of checkpoints of a run never exceeds [totalBatches],
    the number of batches the handler computes beforehand; it equals
    [totalBatches] when no attempt ends in a quota error, and is the number
    of batches before the failing one, less than [totalBatches], when one
    does. *)
Theorem checkpoint_count
    (net : nat -> string -> PostOutcome) (texts : list string) (w : World) :
  exists td w' evs,
    upload_loop net (length texts) texts 0 [] w = Some (td, w')
    /\ log w' = log w ++ evs
    /\ length (checkpoints evs) <= totalBatches (length texts)
    /\ (quota_free net (requests w) texts ->
        length (checkpoints evs) = totalBatches (length texts))
    /\ (forall q t,
          first_quota_at net (requests w) texts q t ->
          length (checkpoints evs) = q / BATCH_SIZE
          /\ q / BATCH_SIZE < totalBatches (length texts)).
Proof.
  destruct (upload_loop_run net texts (length texts) 0 [] w) as (u' & evs & H);
    [cbn [skipn]; lia|].
  cbn [skipn] in H. unfold totalBatches.
  assert (Lt : forall q, q < length texts ->
                 q / BATCH_SIZE < (length texts + (BATCH_SIZE - 1)) / BATCH_SIZE).
  { intros q Hq.
    replace (length texts + (BATCH_SIZE - 1))
      with (BATCH_SIZE + (length texts - 1)) by (unfold BATCH_SIZE; lia).
    rewrite batches_shift.
    assert (q / BATCH_SIZE <= (length texts - 1) / BATCH_SIZE)
      by (apply Nat.Div0.div_le_mono; lia).
    lia. }
  destruct (first_quota net (requests w) texts) as [[q t]|] eqn:F;
    destruct H as (H & _ & _ & K);
    eexists; eexists; exists evs; (split; [exact H|]); (split; [reflexivity|]);
    rewrite K; unfold loop_checkpoints; rewrite length_map, length_seq.
  - destruct (first_quota_sound net _ _ _ _ F) as (_ & Lq & _).
    specialize (Lt q Lq). split; [lia|]. split.
    + intros Qf. apply quota_free_first_quota in Qf. congruence.
    + intros q' t' Hq'. apply first_quota_at_first_quota in Hq'.
      rewrite F in Hq'. inversion Hq'; subst. auto.
  - split; [lia|]. split; [reflexivity|].
    intros q' t' Hq'. apply first_quota_at_first_quota in Hq'. congruence.
Qed.

(* ------------------------------------------------------------------ *)
(** * The loop over batches on binary64 numbers *)

Section LoopFactsBinary64.

Variable net : nat -> string -> PostOutcome.




End LoopFactsBinary64.

Section LoopRunBinary64.

Variable net : nat -> string -> PostOutcome.
Variable texts : list string.


End LoopRunBinary64.


(* ------------------------------------------------------------------ *)
(** * The sheet as the spreadsheet library hands it over *)

Lemma extracted_raw_in (jsonData : list (list Cell)) (c : Cell) :
  In c (textsToTranslate_raw jsonData) <->
  cell_truthy c = true /\ exists row, In row jsonData /\ nth_error row 0 = Some c.
Proof.
  unfold textsToTranslate_raw. rewrite in_map_iff. split.
  - intros (row & E & I). apply filter_In in I as (I & T).
    rewrite E in T. split; [exact T|]. exists row. split; [exact I|].
    unfold raw_row0 in E. destruct row as [|c0 cs]; cbn in E; subst c.
    + discriminate.
    + reflexivity.
  - intros (T & row & I & E). exists row.
    assert (R : raw_row0 row = c).
    { unfold raw_row0. destruct row as [|c0 cs]; [discriminate|].
      cbn in E |- *. congruence. }
    split; [exact R|]. apply filter_In. split; [exact I|]. rewrite R. exact T.
Qed.

(** X6.  The cells the handler takes from the sheet are the truthy first
    cells of its rows, in row order.  A row is skipped exactly when its
    first cell is missing, an empty string, the number 0 (or NaN), or
    [false]; every other row contributes its first cell, the first row
    included (no row is treated as a header); there are at most as many
    cells as rows.  On a sheet whose cells are all strings these are the
    texts of [textsToTranslate_of]. *)
Theorem extracted_texts (jsonData : list (list Cell)) :
  Forall (fun c => cell_truthy c = true) (textsToTranslate_raw jsonData)
  /\ length (textsToTranslate_raw jsonData) <= length jsonData
  /\ (forall c,
        In c (textsToTranslate_raw jsonData) <->
        cell_truthy c = true
        /\ exists row, In row jsonData /\ nth_error row 0 = Some c)
  /\ (forall before after,
        jsonData = before ++ after ->
        textsToTranslate_raw jsonData =
        textsToTranslate_raw before ++ textsToTranslate_raw after)
  /\ (forall c cells rows,
        jsonData = (c :: cells) :: rows ->
        textsToTranslate_raw jsonData =
        if cell_truthy c then c :: textsToTranslate_raw rows
        else textsToTranslate_raw rows)
  /\ (forall rows, jsonData = [] :: rows ->
        textsToTranslate_raw jsonData = textsToTranslate_raw rows)
  /\ (forall c,
        cell_truthy c = false <->
        c = CellEmpty \/ c = CellString "" \/ c = CellBoolean false
        \/ exists x, c = CellNumber x
                     /\ (PrimFloat.is_zero x = true \/ PrimFloat.is_nan x = true))
  /\ (forall rows : list Row,
        jsonData = map (map CellString) rows ->
        textsToTranslate_raw jsonData = map CellString (textsToTranslate_of rows)).
Proof.
  split; [|split; [|split; [apply extracted_raw_in|split; [|split; [|split; [|split]]]]]].
  - apply Forall_forall. intros c I. apply extracted_raw_in in I. tauto.
  - unfold textsToTranslate_raw. rewrite length_map. apply filter_length_le.
  - intros before after ->. unfold textsToTranslate_raw.
    rewrite filter_app, map_app. reflexivity.
  - intros c cells rows ->. unfold textsToTranslate_raw.
    cbn [filter raw_row0 nth]. destruct (cell_truthy c); reflexivity.
  - intros rows ->. reflexivity.
  - intros c. destruct c as [s|x|b|]; cbn [cell_truthy].
    + destruct s as [|a s]; cbn [truthy]; split.
      * intros _. right. left. reflexivity.
      * reflexivity.
      * discriminate.
      * intros [E|[E|[E|(x & E & _)]]]; discriminate.
    + rewrite negb_false_iff, orb_true_iff. split.
      * intros H. right. right. right. exists x. auto.
      * intros [E|[E|[E|(y & E & H)]]]; try discriminate.
        inversion E; subst. exact H.
    + destruct b; split; try discriminate.
      * intros [E|[E|[E|(x & E & _)]]]; discriminate.
      * intros _. right. right. left. reflexivity.
      * reflexivity.
    + split; [intros _; left; reflexivity|reflexivity].
  - intros rows ->. induction rows as [|row rows IH]; [reflexivity|].
    unfold textsToTranslate_raw, textsToTranslate_of in *.
    cbn [map filter]. destruct row as [|s cs].
    + cbn. exact IH.
    + cbn [map raw_row0 row0 nth nth_error truthy_opt cell_truthy].
      destruct (truthy s); cbn [map nth]; [f_equal|]; exact IH.
Qed.
